(** * Roast-level analysis pipeline: a shallow embedding

    This development embeds the server side of the roast-level app
    ([src/unnamed/part_002] and [src/server/routes.ts]: [fetchWithRetry],
    [analyzeWithAbacus], [registerRoutes]) and the client history save
    ([handleSaveToHistory] in [src/unnamed/part_001]).

    Strings are byte strings ([String.string]).  The payloads the claims are
    about (base64 and data URIs) are ASCII, where a byte is a UTF-16 code
    unit, so [length] agrees with JavaScript's [.length] on them. *)

From Stdlib Require Import Strings.String Strings.Ascii ZArith List Lia Bool.
Import ListNotations.
Open Scope string_scope.
Open Scope Z_scope.
Set Warnings "-register-all".

(** ** JSON values, as produced by [JSON.parse] *)

(** A JSON number is kept as its lexeme; object members keep their order
    and duplicates (a later duplicate wins on lookup, as in [JSON.parse]). *)
Inductive json : Type :=
| JNull
| JBool (b : bool)
| JNum (lexeme : string)
| JStr (s : string)
| JArr (xs : list json)
| JObj (kvs : list (string * json)).

Definition chr_quote : ascii := "034"%char.
Definition chr_backslash : ascii := "092"%char.

Definition is_ws (c : ascii) : bool :=
  Ascii.eqb c " "%char || Ascii.eqb c "009"%char
  || Ascii.eqb c "010"%char || Ascii.eqb c "013"%char.

Definition is_digit (c : ascii) : bool :=
  (48 <=? Z.of_nat (nat_of_ascii c)) && (Z.of_nat (nat_of_ascii c) <=? 57).

Fixpoint skip_ws (s : string) : string :=
  match s with
  | String c r => if is_ws c then skip_ws r else s
  | EmptyString => s
  end.

(** [span_digits s] splits off the longest prefix of decimal digits. *)
Fixpoint span_digits (s : string) : string * string :=
  match s with
  | String c r =>
      if is_digit c then let '(d, rest) := span_digits r in (String c d, rest)
      else (EmptyString, s)
  | EmptyString => (EmptyString, EmptyString)
  end.

Definition hex_val (c : ascii) : option Z :=
  let n := Z.of_nat (nat_of_ascii c) in
  if (48 <=? n) && (n <=? 57) then Some (n - 48)
  else if (65 <=? n) && (n <=? 70) then Some (n - 55)
  else if (97 <=? n) && (n <=? 102) then Some (n - 87)
  else None.

Definition byte_of (n : Z) : ascii := ascii_of_nat (Z.to_nat n).

(** The UTF-8 bytes of a [\uXXXX] code unit (a lone surrogate is encoded
    like any other code unit). *)
Definition utf8_of_code (n : Z) : string :=
  if n <? 128 then String (byte_of n) EmptyString
  else if n <? 2048 then
    String (byte_of (192 + n / 64)) (String (byte_of (128 + n mod 64)) EmptyString)
  else
    String (byte_of (224 + n / 4096))
      (String (byte_of (128 + (n / 64) mod 64))
        (String (byte_of (128 + n mod 64)) EmptyString)).

Definition simple_escape (e : ascii) : option ascii :=
  if Ascii.eqb e chr_quote then Some chr_quote
  else if Ascii.eqb e chr_backslash then Some chr_backslash
  else if Ascii.eqb e "/"%char then Some "/"%char
  else if Ascii.eqb e "b"%char then Some "008"%char
  else if Ascii.eqb e "f"%char then Some "012"%char
  else if Ascii.eqb e "n"%char then Some "010"%char
  else if Ascii.eqb e "r"%char then Some "013"%char
  else if Ascii.eqb e "t"%char then Some "009"%char
  else None.

(** The body of a JSON string literal, after its opening quote: the decoded
    contents and the input after the closing quote.  Raw control characters
    are refused, as [JSON.parse] does. *)
Fixpoint parse_string (s : string) : option (string * string) :=
  match s with
  | EmptyString => None
  | String c r =>
      if Ascii.eqb c chr_quote then Some (EmptyString, r)
      else if Ascii.eqb c chr_backslash then
        match r with
        | String e r' =>
            match simple_escape e with
            | Some d =>
                match parse_string r' with
                | Some (v, rest) => Some (String d v, rest)
                | None => None
                end
            | None =>
                if Ascii.eqb e "u"%char then
                  match r' with
                  | String h1 (String h2 (String h3 (String h4 r''))) =>
                      match hex_val h1, hex_val h2, hex_val h3, hex_val h4 with
                      | Some a, Some b, Some c', Some d =>
                          match parse_string r'' with
                          | Some (v, rest) =>
                              Some (utf8_of_code (((a * 16 + b) * 16 + c') * 16 + d) ++ v,
                                    rest)
                          | None => None
                          end
                      | _, _, _, _ => None
                      end
                  | _ => None
                  end
                else None
            end
        | EmptyString => None
        end
      else if Z.of_nat (nat_of_ascii c) <? 32 then None
      else
        match parse_string r with
        | Some (v, rest) => Some (String c v, rest)
        | None => None
        end
  end.

(** A JSON number: [-?(0|[1-9][0-9]* )(\.[0-9]+)?([eE][+-]?[0-9]+)?]. *)
Definition parse_number (s : string) : option (string * string) :=
  let '(sign, s1) :=
    match s with
    | String c r => if Ascii.eqb c "-"%char then ("-", r) else ("", s)
    | EmptyString => ("", s)
    end in
  let int_part :=
    match s1 with
    | String c r =>
        if Ascii.eqb c "0"%char then Some ("0", r)
        else if is_digit c then let '(d, rest) := span_digits r in Some (String c d, rest)
        else None
    | EmptyString => None
    end in
  match int_part with
  | None => None
  | Some (ip, s2) =>
      let frac :=
        match s2 with
        | String c r =>
            if Ascii.eqb c "."%char then
              let '(d, rest) := span_digits r in
              match d with EmptyString => None | _ => Some ("." ++ d, rest) end
            else Some ("", s2)
        | EmptyString => Some ("", s2)
        end in
      match frac with
      | None => None
      | Some (fp, s3) =>
          let exp :=
            match s3 with
            | String c r =>
                if Ascii.eqb c "e"%char || Ascii.eqb c "E"%char then
                  let '(sg, r1) :=
                    match r with
                    | String c2 r2 =>
                        if Ascii.eqb c2 "+"%char || Ascii.eqb c2 "-"%char
                        then (String c2 EmptyString, r2) else ("", r)
                    | EmptyString => ("", r)
                    end in
                  let '(d, rest) := span_digits r1 in
                  match d with
                  | EmptyString => None
                  | _ => Some (String c (sg ++ d), rest)
                  end
                else Some ("", s3)
            | EmptyString => Some ("", s3)
            end in
          match exp with
          | None => None
          | Some (ep, s4) => Some (sign ++ ip ++ fp ++ ep, s4)
          end
      end
  end.

(** [s] starts with the keyword [kw]; returns the rest. *)
Fixpoint strip_prefix (kw s : string) : option string :=
  match kw, s with
  | EmptyString, _ => Some s
  | String k kr, String c r => if Ascii.eqb k c then strip_prefix kr r else None
  | String _ _, EmptyString => None
  end.

(** Recursive descent for values, array elements and object members; the
    fuel [n] bounds the nesting, and every call consumes input, so
    [length s + 1] never runs out. *)
Fixpoint parse_value (n : nat) (s : string) : option (json * string) :=
  match n with
  | O => None
  | S n' =>
      match skip_ws s with
      | String c r =>
          if Ascii.eqb c "{"%char then
            match skip_ws r with
            | String c2 r2 =>
                if Ascii.eqb c2 "}"%char then Some (JObj [], r2)
                else parse_members n' r []
            | EmptyString => None
            end
          else if Ascii.eqb c "["%char then
            match skip_ws r with
            | String c2 r2 =>
                if Ascii.eqb c2 "]"%char then Some (JArr [], r2)
                else parse_elems n' r []
            | EmptyString => None
            end
          else if Ascii.eqb c chr_quote then
            match parse_string r with
            | Some (v, rest) => Some (JStr v, rest)
            | None => None
            end
          else if Ascii.eqb c "-"%char || is_digit c then
            match parse_number (String c r) with
            | Some (lx, rest) => Some (JNum lx, rest)
            | None => None
            end
          else
            match strip_prefix "true" (String c r) with
            | Some rest => Some (JBool true, rest)
            | None =>
                match strip_prefix "false" (String c r) with
                | Some rest => Some (JBool false, rest)
                | None =>
                    match strip_prefix "null" (String c r) with
                    | Some rest => Some (JNull, rest)
                    | None => None
                    end
                end
            end
      | EmptyString => None
      end
  end
with parse_elems (n : nat) (s : string) (acc : list json) : option (json * string) :=
  match n with
  | O => None
  | S n' =>
      match parse_value n' s with
      | Some (v, r) =>
          match skip_ws r with
          | String c r2 =>
              if Ascii.eqb c ","%char then parse_elems n' r2 (acc ++ [v])
              else if Ascii.eqb c "]"%char then Some (JArr (acc ++ [v]), r2)
              else None
          | EmptyString => None
          end
      | None => None
      end
  end
with parse_members (n : nat) (s : string) (acc : list (string * json))
    : option (json * string) :=
  match n with
  | O => None
  | S n' =>
      match skip_ws s with
      | String q r =>
          if Ascii.eqb q chr_quote then
            match parse_string r with
            | Some (k, r1) =>
                match skip_ws r1 with
                | String col r2 =>
                    if Ascii.eqb col ":"%char then
                      match parse_value n' r2 with
                      | Some (v, r3) =>
                          match skip_ws r3 with
                          | String c r4 =>
                              if Ascii.eqb c ","%char then parse_members n' r4 (acc ++ [(k, v)])
                              else if Ascii.eqb c "}"%char then Some (JObj (acc ++ [(k, v)]), r4)
                              else None
                          | EmptyString => None
                          end
                      | None => None
                      end
                    else None
                | EmptyString => None
                end
            | None => None
            end
          else None
      | EmptyString => None
      end
  end.

(** [JSON.parse s]: one value, surrounded only by whitespace; [None] is the
    [SyntaxError] it throws. *)
Definition json_parse (s : string) : option json :=
  match parse_value (S (String.length s)) s with
  | Some (v, rest) =>
      match skip_ws rest with EmptyString => Some v | _ => None end
  | None => None
  end.

(** Replaces every ['] by a double quote: lets JSON texts be written below
    without escaping. *)
Fixpoint qt (s : string) : string :=
  match s with
  | EmptyString => EmptyString
  | String c r => String (if Ascii.eqb c "'"%char then chr_quote else c) (qt r)
  end.



(** ** JavaScript values read from parsed JSON *)

(** [Number(s)] for a string of decimal digits (also reads an id back). *)
Fixpoint dec_value (acc : Z) (s : string) : Z :=
  match s with
  | EmptyString => acc
  | String c r => dec_value (acc * 10 + (Z.of_nat (nat_of_ascii c) - 48)) r
  end.

(** The digits of a number lexeme before its exponent, read as the integer
    [m] they spell, their count [l] and the count [f] of those after the
    point; returns the exponent part left over. *)
Fixpoint lex_mantissa (s : string) (m l f : Z) (frac : bool) : Z * Z * Z * string :=
  match s with
  | EmptyString => (m, l, f, s)
  | String c r =>
      if Ascii.eqb c "-"%char then lex_mantissa r m l f frac
      else if Ascii.eqb c "."%char then lex_mantissa r m l f true
      else if is_digit c then
        lex_mantissa r (m * 10 + (Z.of_nat (nat_of_ascii c) - 48)) (l + 1)
          (if frac then f + 1 else f) frac
      else (m, l, f, s)
  end.

(** The exponent part [e+d], [e-d], [ed] (or [E...]) as an integer. *)
Definition lex_exponent (s : string) : Z :=
  match s with
  | String _ (String c r) =>
      if Ascii.eqb c "-"%char then - dec_value 0 r
      else if Ascii.eqb c "+"%char then dec_value 0 r
      else dec_value 0 (String c r)
  | _ => 0
  end.

(** [JSON.parse] turns the lexeme, whose value is [m * 10^e], into the
    nearest double (ties to even).  That double is [0] exactly when [m = 0]
    or [m * 10^e <= 2^-1075], half the least subnormal: [1e-400] and
    [2e-324] read as [0].  When [l + e <= -324] the value is below
    [10^-324 < 2^-1075] and the exact comparison is skipped. *)
Definition num_zero (lx : string) : bool :=
  let '(m, l, f, r) := lex_mantissa lx 0 0 0 false in
  let e := lex_exponent r - f in
  if m =? 0 then true
  else if 0 <=? e then false
  else if l + e <=? -324 then true
  else m * 2 ^ 1075 <=? 10 ^ (- e).

(** Truthiness of a value; [None] is [undefined].  A number is falsy when
    it reads as [0] (or [-0]). *)

Definition truthy (v : option json) : bool :=
  match v with
  | None | Some JNull => false
  | Some (JBool b) => b
  | Some (JNum lx) => negb (num_zero lx)
  | Some (JStr s) => negb (String.eqb s "")
  | Some (JArr _) | Some (JObj _) => true
  end.

(** Own property of an object parsed by [JSON.parse]: the last binding of
    the key.  Used with the names [choices], [message], [content] and
    [imageBase64], which no array, string, number or boolean has. *)
Fixpoint lookup_last (k : string) (kvs : list (string * json)) : option json :=
  match kvs with
  | [] => None
  | (k', v) :: r =>
      match lookup_last k r with
      | Some w => Some w
      | None => if String.eqb k k' then Some v else None
      end
  end.

Definition get_prop (v : json) (k : string) : option json :=
  match v with
  | JObj kvs => lookup_last k kvs
  | _ => None
  end.

(** [v[0]]. *)
Definition get_index0 (v : json) : option json :=
  match v with
  | JArr (x :: _) => Some x
  | JStr (String c _) => Some (JStr (String c EmptyString))
  | JObj kvs => lookup_last "0" kvs
  | _ => None
  end.

(** [x?.f]: [undefined] when [x] is [null] or [undefined]. *)
Definition opt_chain (x : option json) (f : json -> option json) : option json :=
  match x with
  | None | Some JNull => None
  | Some v => f v
  end.

(** ** Upstream network and thrown errors *)

Record response := { status : Z; body_text : string }.

(** [response.ok]. *)
Definition ok (r : response) : bool := (200 <=? status r) && (status r <=? 299).

(** What the upstream does on one request: answer after [latency_ms]
    milliseconds, or fail at the transport level. *)
Inductive upstream :=
| UReply (latency_ms : Z) (r : response)
| UNetError.

(** One [fetch] issued: its endpoint and the abort timeout armed for it. *)
Record fetch_call := { fc_url : string; fc_timeout : option Z }.

(** Everything the code throws.  The [Error]s it builds itself carry their
    data; the others are the runtime's ([JSON.parse], property access on
    [null], the abort signal, a failed [fetch]). *)
Inductive error :=
| NotConfigured
| TooLarge (kb : Z)
| RouteLLMError (st : Z) (text : string)
| AbacusAPIError (st : Z)
| NoResponse
| CouldNotParse
| Unreachable
| SyntaxError
| TypeError
| AbortError
| FetchFailed.

(** The state of a run: the log of every [fetch] issued so far. *)
Definition M (A : Type) : Type := list fetch_call -> (A + error) * list fetch_call.

Definition ret {A} (x : A) : M A := fun log => (inl x, log).
Definition throw {A} (e : error) : M A := fun log => (inr e, log).
Definition bind {A B} (m : M A) (k : A -> M B) : M B :=
  fun log => match m log with
             | (inl x, log') => k x log'
             | (inr e, log') => (inr e, log')
             end.
(** [try { m } catch (e) { h(e) }]. *)
Definition try_catch {A} (m : M A) (h : error -> M A) : M A :=
  fun log => match m log with
             | (inl x, log') => (inl x, log')
             | (inr e, log') => h e log'
             end.
Definition lift {A} (r : A + error) : M A := fun log => (r, log).

Notation "x <- m ;; k" := (bind m (fun x => k))
  (at level 61, m at next level, right associativity).

(** ** Response extraction *)

(** The regular expression [/\{[\s\S]*\}/] with [String.prototype.match]:
    at the leftmost ['{'] followed somewhere by a ['}'], the greedy
    [[\s\S]*] extends the match to the last ['}'] of the text.
    [upto_last_close r] is the prefix of [r] ending at its last ['}']. *)
Fixpoint upto_last_close (r : string) : option string :=
  match r with
  | EmptyString => None
  | String c r' =>
      match upto_last_close r' with
      | Some m => Some (String c m)
      | None => if Ascii.eqb c "}"%char then Some (String c EmptyString) else None
      end
  end.

Fixpoint brace_span (s : string) : option string :=
  match s with
  | EmptyString => None
  | String c r =>
      if Ascii.eqb c "{"%char then
        match upto_last_close r with
        | Some m => Some (String c m)
        | None => brace_span r
        end
      else brace_span r
  end.

(** [content.match(...)], then [JSON.parse(jsonMatch[0]) as AnalysisResult]:
    the cast checks nothing. *)
Definition extract (content : string) : json + error :=
  match brace_span content with
  | None => inr CouldNotParse
  | Some span =>
      match json_parse span with
      | Some v => inl v
      | None => inr SyntaxError
      end
  end.

(** [data.choices?.[0]?.message?.content]; [data.choices] throws on [null]. *)
Definition content_of (data : json) : option json + error :=
  match data with
  | JNull => inr TypeError
  | _ =>
      inl (opt_chain
             (opt_chain (opt_chain (get_prop data "choices") get_index0)
                (fun m => get_prop m "message"))
             (fun m => get_prop m "content"))
  end.

(** From a 2xx response to the result: [await response.json()], the
    content, its truthiness check, then the extraction ([content.match] is
    not a function on a non-string content). *)
Definition read_result (r : response) : M json :=
  match json_parse (body_text r) with
  | None => throw SyntaxError
  | Some data =>
      match content_of data with
      | inr e => throw e
      | inl content =>
          if negb (truthy content) then throw NoResponse
          else match content with
               | Some (JStr s) => lift (extract s)
               | _ => throw TypeError
               end
      end
  end.

(** ** Error messages and HTTP replies *)

Fixpoint dec_digits (fuel : nat) (n : Z) (acc : string) : string :=
  match fuel with
  | O => acc
  | S f =>
      let acc' := String (byte_of (48 + n mod 10)) acc in
      if n <? 10 then acc' else dec_digits f (n / 10) acc'
  end.

(** [String(n)] for an integer: a number has at most as many decimal digits
    as bits. *)
Definition z_to_dec (n : Z) : string :=
  if n <? 0 then "-" ++ dec_digits (S (Z.to_nat (Z.log2 (- n)))) (- n) ""
  else dec_digits (S (Z.to_nat (Z.log2 n))) n "".

(** [error.message]; the runtime's errors are named by their kind. *)
Definition error_message (e : error) : string :=
  match e with
  | NotConfigured => "ABACUS_API_KEY is not configured"
  | TooLarge kb => "Image too large (" ++ z_to_dec kb ++ "KB). Please use a smaller image."
  | RouteLLMError st t => "RouteLLM error " ++ z_to_dec st ++ ": " ++ t
  | AbacusAPIError st => "Abacus API error: " ++ z_to_dec st
  | NoResponse => "No response from Abacus API"
  | CouldNotParse => "Could not parse response from Abacus API"
  | Unreachable => "Unreachable"
  | SyntaxError => "SyntaxError"
  | TypeError => "TypeError"
  | AbortError => "This operation was aborted"
  | FetchFailed => "fetch failed"
  end.

Record http_reply := { code : Z; reply_body : json }.

Definition json_error (msg : string) : json := JObj [("error", JStr msg)].
Definition json_status (st : string) : json := JObj [("status", JStr st)].

Definition url_routellm : string := "https://routellm.abacus.ai/v1/chat/completions".
Definition url_abacus_v0 : string := "https://api.abacus.ai/v0/chat/completions".

(** [process.env.ABACUS_API_KEY] is set and non-empty ([!apiKey] fails). *)
Definition configured (apiKey : option string) : bool :=
  match apiKey with
  | Some k => negb (String.eqb k "")
  | None => false
  end.

(** [s.length], counted into a [Z] accumulator. *)
Fixpoint length_acc (s : string) (acc : Z) : Z :=
  match s with
  | EmptyString => acc
  | String _ r => length_acc r (Z.succ acc)
  end.

Definition js_length (s : string) : Z := length_acc s 0.

(** [Math.ceil((imageBase64.length * 3) / 4 / 1024)]: dividing by 4 and by
    1024 is exact in floating point, so this is the ceiling of
    [3 * length / 4096]. *)
Definition base64SizeKB (imageBase64 : string) : Z :=
  (js_length imageBase64 * 3 + 4095) / 4096.

Section Upstream.

(** The upstream's behaviour on the [k]-th request of the run. *)
Variable net : nat -> upstream.

(** How one [fetch] settles when an abort timer of [timeout] ms is armed
    (none: [None]); a reply arriving when the timer fires is aborted. *)
Definition attempt_outcome (u : upstream) (timeout : option Z) : response + error :=
  match u with
  | UNetError => inr FetchFailed
  | UReply lat r =>
      match timeout with
      | Some t => if t <=? lat then inr AbortError else inl r
      | None => inl r
      end
  end.

Definition fetch (url : string) (timeout : option Z) : M response :=
  fun log =>
    (attempt_outcome (net (List.length log)) timeout,
     (log ++ [{| fc_url := url; fc_timeout := timeout |}])%list).

(** The loop [for (attempt = 0; attempt <= retries; attempt++)] of
    [fetchWithRetry]; [fuel] is the number of iterations left. *)
Fixpoint retry_loop (fuel attempt retries : nat) (url : string) (timeoutMs : Z)
    : M response :=
  match fuel with
  | O => throw Unreachable
  | S fuel' =>
      try_catch (fetch url (Some timeoutMs))
        (fun err =>
           if Nat.eqb attempt retries then throw err
           else retry_loop fuel' (S attempt) retries url timeoutMs)
  end.

Definition fetchWithRetry (url : string) (retries : nat) (timeoutMs : Z) : M response :=
  retry_loop (S retries) 0 retries url timeoutMs.

(** [analyzeWithAbacus] of [src/unnamed/part_002] (its [catch] only logs and
    rethrows). *)
Definition analyzeWithAbacus (apiKey : option string) (imageBase64 : string) : M json :=
  if negb (configured apiKey) then throw NotConfigured
  else
    let kb := base64SizeKB imageBase64 in
    if 4500 <? kb then throw (TooLarge kb)
    else
      response <- fetchWithRetry url_routellm 2 15000 ;;
      if negb (ok response) then throw (RouteLLMError (status response) (body_text response))
      else read_result response.

(** [analyzeWithAbacus] of [src/server/routes.ts]: one plain [fetch]. *)
Definition analyzeWithAbacus_ts (apiKey : option string) (imageBase64 : string) : M json :=
  if negb (configured apiKey) then throw NotConfigured
  else
    response <- fetch url_abacus_v0 None ;;
    if negb (ok response) then throw (AbacusAPIError (status response))
    else read_result response.

(** [analyzeWithAbacus(imageBase64)] (either file) on the value the route
    passes, which need not be a string: on a string it is the function
    above; on any other value its key check runs, then
    [imageBase64.startsWith("data:")] throws a [TypeError] (no array,
    number, boolean or object read from JSON has a [startsWith] method). *)
Definition analyze_value (analyze : string -> M json) (apiKey : option string) (v : json)
    : M json :=
  match v with
  | JStr s => analyze s
  | _ => if negb (configured apiKey) then throw NotConfigured else throw TypeError
  end.

(** The [POST /api/analyze] handler of [registerRoutes] (the same in both
    files), over the analysis it calls on the [imageBase64] value and the
    parsed request body ([const { imageBase64 } = req.body] throws on
    [null]; [undefined], the missing property, is falsy). *)
Definition analyze_route (analyze : json -> M json) (body : json) : M http_reply :=
  match body with
  | JNull => ret {| code := 500; reply_body := json_error (error_message TypeError) |}
  | _ =>
      let imageBase64 := get_prop body "imageBase64" in
      match imageBase64 with
      | Some v =>
          if negb (truthy imageBase64) then
            ret {| code := 400; reply_body := json_error "Image data is required" |}
          else
            try_catch
              (result <- analyze v ;;
               ret {| code := 200; reply_body := result |})
              (fun e => ret {| code := 500; reply_body := json_error (error_message e) |})
      | None => ret {| code := 400; reply_body := json_error "Image data is required" |}
      end
  end.

Definition post_analyze (apiKey : option string) (body : json) : M http_reply :=
  analyze_route (analyze_value (analyzeWithAbacus apiKey) apiKey) body.

Definition post_analyze_ts (apiKey : option string) (body : json) : M http_reply :=
  analyze_route (analyze_value (analyzeWithAbacus_ts apiKey) apiKey) body.

(** [GET /api/health/abacus] of [src/unnamed/part_002]. *)
Definition get_health_abacus : M http_reply :=
  try_catch
    (response <- fetchWithRetry url_routellm 0 5000 ;;
     if negb (ok response) then ret {| code := 503; reply_body := json_status "down" |}
     else ret {| code := 200; reply_body := json_status "ok" |})
    (fun _ => ret {| code := 503; reply_body := json_status "down" |}).

End Upstream.

(** ** Client history store ([src/unnamed/part_001], [ResultsScreen]) *)

Module History.

(** A history item as [handleSaveToHistory] builds it.  The interface types
    every field as a string, but nothing checks the values: [imageBase64]
    is the screen's route parameter ([None]: [undefined]) and the four
    result fields are read off the server's reply as they are. *)
Record HistoryItem := {
  id : string;
  imageBase64 : option json;
  roastLevel : option json;
  temperature : option json;
  temperatureRange : option json;
  notes : option json;
  date : string
}.

Definition HISTORY_KEY : string := "@coffee_roast_history".

(** The list stored under [HISTORY_KEY] ([None]: no item).  The ids and the
    order, which is all the handlers below look at, survive the
    [JSON.stringify]/[JSON.parse] round trip; [HistoryStore] models the
    text itself. *)
Definition stored_history (stored : option (list HistoryItem)) : list HistoryItem :=
  match stored with
  | Some h => h
  | None => []
  end.

(** One press of the save button: [Date.now()], [new Date().toISOString()],
    and the screen's route parameters [imageBase64] (set by the analysis
    screen to [imageData?.base64] when the analysis succeeded, [undefined]
    if the image was cleared meanwhile) and [result] (the server's reply). *)
Record save_event := {
  now_ms : Z;
  now_iso : string;
  ev_image : option json;
  ev_result : json
}.

Definition newItem (ev : save_event) : HistoryItem := {|
  id := z_to_dec (now_ms ev);
  imageBase64 := ev_image ev;
  roastLevel := get_prop (ev_result ev) "roastLevel";
  temperature := get_prop (ev_result ev) "temperature";
  temperatureRange := get_prop (ev_result ev) "temperatureRange";
  notes := get_prop (ev_result ev) "notes";
  date := now_iso ev
|}.

(** [handleSaveToHistory]: read, [history.unshift(newItem)], store
    [history.slice(0, 50)]. *)
Definition handleSaveToHistory (stored : option (list HistoryItem)) (ev : save_event)
    : option (list HistoryItem) :=
  let history := stored_history stored in
  Some (firstn 50 (newItem ev :: history)).

(** A sequence of saves, oldest first. *)
Fixpoint save_all (stored : option (list HistoryItem)) (evs : list save_event)
    : option (list HistoryItem) :=
  match evs with
  | [] => stored
  | ev :: evs' => save_all (handleSaveToHistory stored ev) evs'
  end.

End History.

(** ** [JSON.stringify] *)

Definition hex_digit (n : Z) : ascii :=
  if n <? 10 then byte_of (48 + n) else byte_of (87 + n).

(** One character of [QuoteJSONString]: the short escapes, [\u00xx] for the
    other control characters, and the character itself otherwise. *)
Definition escape_char (c : ascii) : string :=
  let n := Z.of_nat (nat_of_ascii c) in
  let bs (e : ascii) := String chr_backslash (String e EmptyString) in
  if Ascii.eqb c chr_quote then bs chr_quote
  else if Ascii.eqb c chr_backslash then bs chr_backslash
  else if Ascii.eqb c "008"%char then bs "b"%char
  else if Ascii.eqb c "012"%char then bs "f"%char
  else if Ascii.eqb c "010"%char then bs "n"%char
  else if Ascii.eqb c "013"%char then bs "r"%char
  else if Ascii.eqb c "009"%char then bs "t"%char
  else if n <? 32 then
    String chr_backslash (String "u"%char (String "0"%char (String "0"%char
      (String (hex_digit (n / 16)) (String (hex_digit (n mod 16)) EmptyString)))))
  else String c EmptyString.

Fixpoint quote_body (s : string) : string :=
  match s with
  | EmptyString => EmptyString
  | String c r => escape_char c ++ quote_body r
  end.

Definition quote (s : string) : string :=
  String chr_quote (quote_body s ++ String chr_quote EmptyString).

(** The keys of an object in the order of their first occurrence: a parsed
    object has one property per key, placed where the key first appeared and
    holding the last value ([lookup_last]). *)
Fixpoint first_keys (kvs : list (string * json)) (seen : list string) : list string :=
  match kvs with
  | [] => []
  | (k, _) :: r =>
      if existsb (String.eqb k) seen then first_keys r seen
      else k :: first_keys r (k :: seen)
  end.

Fixpoint json_size (v : json) : nat :=
  match v with
  | JArr xs => S ((fix go (xs : list json) : nat :=
                     match xs with [] => O | x :: r => (json_size x + go r)%nat end) xs)
  | JObj kvs => S ((fix go (kvs : list (string * json)) : nat :=
                      match kvs with [] => O | (_, x) :: r => (json_size x + go r)%nat end) kvs)
  | _ => 1%nat
  end.

Fixpoint all_some (xs : list (option string)) : option (list string) :=
  match xs with
  | [] => Some []
  | Some a :: r => match all_some r with Some l => Some (a :: l) | None => None end
  | None :: _ => None
  end.

(** [JSON.stringify(v)] with no replacer and no indentation, for values
    without numbers ([None]: the value holds a number, whose formatting is
    not modelled).  The fuel bounds the nesting; [json_size v] suffices. *)
Fixpoint stringify_fuel (n : nat) (v : json) : option string :=
  match n with
  | O => None
  | S n' =>
      match v with
      | JNull => Some "null"
      | JBool true => Some "true"
      | JBool false => Some "false"
      | JNum _ => None
      | JStr s => Some (quote s)
      | JArr xs =>
          match all_some (map (stringify_fuel n') xs) with
          | Some l => Some ("[" ++ String.concat "," l ++ "]")
          | None => None
          end
      | JObj kvs =>
          let member k :=
            match lookup_last k kvs with
            | Some x => match stringify_fuel n' x with
                        | Some t => Some (quote k ++ ":" ++ t)
                        | None => None
                        end
            | None => None
            end in
          match all_some (map member (first_keys kvs [])) with
          | Some l => Some ("{" ++ String.concat "," l ++ "}")
          | None => None
          end
      end
  end.

Definition stringify (v : json) : option string := stringify_fuel (json_size v) v.

(** Distinct keys. *)
Fixpoint keys_distinct (kvs : list (string * json)) : bool :=
  match kvs with
  | [] => true
  | (k, _) :: r => negb (existsb (String.eqb k) (map fst r)) && keys_distinct r
  end.

(** A value whose text [JSON.stringify] gives here: it holds no number, and
    every object in it has distinct keys, as every JavaScript object has
    (an object read with duplicate keys stands for the object with one
    property per key). *)
Fixpoint plain (v : json) : bool :=
  match v with
  | JNum _ => false
  | JArr xs => forallb plain xs
  | JObj kvs => keys_distinct kvs && forallb (fun kv => plain (snd kv)) kvs
  | _ => true
  end.

(** The text of a value, printed member by member and element by element. *)
Fixpoint json_text (v : json) : string :=
  match v with
  | JNull => "null"
  | JBool true => "true"
  | JBool false => "false"
  | JNum lx => lx
  | JStr s => quote s
  | JArr xs => "[" ++ String.concat "," (map json_text xs) ++ "]"
  | JObj kvs =>
      "{" ++ String.concat "," (map (fun kv => quote (fst kv) ++ ":" ++ json_text (snd kv)) kvs)
      ++ "}"
  end.

(** The text of one member. *)
Definition member_text (kv : string * json) : string :=
  quote (fst kv) ++ ":" ++ json_text (snd kv).

Section JsonInd.

Variable P : json -> Prop.
Hypothesis HNull : P JNull.
Hypothesis HBool : forall b, P (JBool b).
Hypothesis HNum : forall lx, P (JNum lx).
Hypothesis HStr : forall s, P (JStr s).
Hypothesis HArr : forall xs, Forall P xs -> P (JArr xs).
Hypothesis HObj : forall kvs, Forall (fun kv => P (snd kv)) kvs -> P (JObj kvs).

(** Induction on values, through the elements and the member values. *)
Fixpoint json_ind' (v : json) : P v :=
  match v with
  | JNull => HNull
  | JBool b => HBool b
  | JNum lx => HNum lx
  | JStr s => HStr s
  | JArr xs =>
      HArr xs ((fix go (xs : list json) : Forall P xs :=
                  match xs with
                  | [] => Forall_nil P
                  | x :: r => Forall_cons x (json_ind' x) (go r)
                  end) xs)
  | JObj kvs =>
      HObj kvs ((fix go (kvs : list (string * json))
                   : Forall (fun kv => P (snd kv)) kvs :=
                   match kvs with
                   | [] => Forall_nil _
                   | (k, x) :: r => Forall_cons (P := fun kv => P (snd kv)) (k, x)
                                      (json_ind' x) (go r)
                   end) kvs)
  end.

End JsonInd.

(** [imageUrl] of [analyzeWithAbacus] (both files): the payload as a data
    URI. *)
Definition imageUrl (imageBase64 : string) : string :=
  if String.prefix "data:" imageBase64 then imageBase64
  else "data:image/jpeg;base64," ++ imageBase64.

(** ** The analysis screen's request ([src/client/screens/AnalysisScreen.tsx]) *)

Module Client.

Record ImageData := { uri : string; base64 : string }.

(** [handleAnalyze]: [if (imageData?.base64) analysisMutation.mutate(...)];
    the payload submitted, if any. *)
Definition handleAnalyze (imageData : option ImageData) : option string :=
  match imageData with
  | Some d => if String.eqb (base64 d) "" then None else Some (base64 d)
  | None => None
  end.

(** The request body text, [JSON.stringify({ imageBase64: base64Image })]. *)
Definition request_body (base64Image : string) : option string :=
  stringify (JObj [("imageBase64", JStr base64Image)]).

(** How the server's [express.json()] reads a body text ([None]: the
    parser rejects it). *)
Definition express_json (text : string) : option json := json_parse text.

(** [mutationFn] once the server replied (its body sent by [res.json], i.e.
    [JSON.stringify]): [inl] the result of [response.json()], [inr] the
    message of the [Error] thrown.  [None]: a body holding a number. *)
Definition mutation_outcome (reply : http_reply) : option (json + string) :=
  match stringify (reply_body reply) with
  | None => None
  | Some text =>
      if (200 <=? code reply) && (code reply <=? 299) then
        match json_parse text with
        | Some v => Some (inl v)
        | None => Some (inr (error_message SyntaxError))
        end
      else Some (inr (if String.eqb text "" then "Analysis failed" else text))
  end.

(** The error card's text: [analysisMutation.error?.message || "..."]. *)
Definition displayed_error (message : string) : string :=
  if String.eqb message "" then "Analysis failed. Please try again." else message.

End Client.

(** ** History and settings screens ([src/unnamed/part_000], [part_001]) *)

Module HistoryStore.

(** The object literal [newItem] of [handleSaveToHistory], as its fields in
    source order ([None]: [undefined]). *)
Definition item_fields (it : History.HistoryItem) : list (string * option json) :=
  [("id", Some (JStr (History.id it))); ("imageBase64", History.imageBase64 it);
   ("roastLevel", History.roastLevel it); ("temperature", History.temperature it);
   ("temperatureRange", History.temperatureRange it); ("notes", History.notes it);
   ("date", Some (JStr (History.date it)))].

(** [JSON.stringify] leaves out the members whose value is [undefined]. *)
Fixpoint defined_members (kvs : list (string * option json)) : list (string * json) :=
  match kvs with
  | [] => []
  | (k, Some v) :: r => (k, v) :: defined_members r
  | (_, None) :: r => defined_members r
  end.

(** The item as [JSON.stringify] sees it. *)
Definition item_json (it : History.HistoryItem) : json :=
  JObj (defined_members (item_fields it)).

(** [AsyncStorage.setItem(HISTORY_KEY, JSON.stringify(history))]: the text
    stored for a list of items. *)
Definition store_text (l : list History.HistoryItem) : option string :=
  stringify (JArr (map item_json l)).

(** Every defined field of the item is [plain]. *)
Definition item_plain (it : History.HistoryItem) : bool :=
  forallb (fun kv => match snd kv with Some v => plain v | None => true end)
    (item_fields it).

End HistoryStore.

Module HistoryScreen.

(** [loadHistory]: [stored ? JSON.parse(stored) : []]. *)
Definition loadHistory (stored : option (list History.HistoryItem)) : list History.HistoryItem :=
  History.stored_history stored.

(** [handleDelete]: filter the list on screen, then store it; returns the new
    screen state and the stored value. *)
Definition handleDelete (history : list History.HistoryItem) (id : string)
    : list History.HistoryItem * option (list History.HistoryItem) :=
  let updated := filter (fun item => negb (String.eqb (History.id item) id)) history in
  (updated, Some updated).

(** [loadHistory] on the stored text: [stored ? JSON.parse(stored) : []]
    ([None]: [JSON.parse] threw, the error is logged and the list on screen
    is left as it was). *)
Definition load_stored (stored : option string) : option json :=
  match stored with
  | Some t => if String.eqb t "" then Some (JArr []) else json_parse t
  | None => Some (JArr [])
  end.

(** The thumbnail of [renderItem]: [source={{ uri: item.imageUri }}]. *)
Definition thumbnail_uri (item : json) : option json := get_prop item "imageUri".

End HistoryScreen.

Module SettingsScreen.

(** [clearHistory]: [AsyncStorage.removeItem(HISTORY_KEY)]. *)
Definition clearHistory (stored : option (list History.HistoryItem))
    : option (list History.HistoryItem) := None.

Definition SETTINGS_KEY : string := "@coffee_roast_settings".
(** The settings on screen and the text stored under [SETTINGS_KEY]. *)
Record state := { settings : json; stored : option string }.
(** [useState<Settings>({ useFahrenheit: false })]. *)
Definition initial_settings : json := JObj [("useFahrenheit", JBool false)].
(** The object [{ ...settings, useFahrenheit: value }]: the keys of
    [settings] in their order, then [useFahrenheit] if it is new, each with
    its last value.  Spreading [null], a boolean or a number adds nothing;
    [None]: a string or an array, whose index keys are not modelled. *)
Fixpoint pick (ks : list string) (kvs : list (string * json)) : list (string * json) :=
  match ks with
  | [] => []
  | k :: r => match lookup_last k kvs with
              | Some v => (k, v) :: pick r kvs
              | None => pick r kvs
              end
  end.
Definition spread_useFahrenheit (s : json) (value : bool) : option json :=
  match s with
  | JObj kvs =>
      let kvs' := (kvs ++ [("useFahrenheit", JBool value)])%list in
      Some (JObj (pick (first_keys kvs' []) kvs'))
  | JNull | JBool _ | JNum _ => Some (JObj [("useFahrenheit", JBool value)])
  | JStr _ | JArr _ => None
  end.
(** [saveSettings]: store [JSON.stringify(newSettings)], then show it
    ([None]: a value holding a number, outside the model of [stringify]). *)
Definition saveSettings (newSettings : json) (st : state) : option state :=
  match stringify newSettings with
  | Some text => Some {| settings := newSettings; stored := Some text |}
  | None => None
  end.
(** [handleToggleUnit(value)]: [saveSettings({ ...settings, useFahrenheit: value })]. *)
Definition handleToggleUnit (value : bool) (st : state) : option state :=
  match spread_useFahrenheit (settings st) value with
  | Some s => saveSettings s st
  | None => None
  end.
(** [loadSettings]: [if (stored) setSettings(JSON.parse(stored))]; a
    [SyntaxError] is caught and logged. *)
Definition loadSettings (st : state) : state :=
  match stored st with
  | Some t =>
      if String.eqb t "" then st
      else match json_parse t with
           | Some v => {| settings := v; stored := stored st |}
           | None => st
           end
  | None => st
  end.
(** The screen mounted: its initial state, then [loadSettings] from the
    [useEffect]. *)
Definition mount (stored : option string) : state :=
  loadSettings {| settings := initial_settings; stored := stored |}.
(** A sequence of switch toggles and remounts of the screen. *)
Inductive event := Toggle (value : bool) | Remount.
Fixpoint run (evs : list event) (st : state) : option state :=
  match evs with
  | [] => Some st
  | Toggle v :: r => match handleToggleUnit v st with
                     | Some st' => run r st'
                     | None => None
                     end
  | Remount :: r => run r (mount (stored st))
  end.
(** The value of the last toggle, [d] if there is none. *)
Definition last_toggle (d : bool) (evs : list event) : bool :=
  fold_left (fun acc e => match e with Toggle v => v | Remount => acc end) evs d.
End SettingsScreen.

(** ** Roast badge colour ([getRoastColor], in [part_000] and [part_001]) *)

(** [toLowerCase] on ASCII text, where it maps exactly [A-Z] to [a-z].
    Outside ASCII JavaScript lowercases more letters (the Kelvin sign
    U+212A to [k], for one), which this model does not: the properties of
    [getRoastColor] below are stated for ASCII labels ([ascii_text]). *)
Definition lower_char (c : ascii) : ascii :=
  let n := Z.of_nat (nat_of_ascii c) in
  if (65 <=? n) && (n <=? 90) then byte_of (n + 32) else c.

Fixpoint to_lower (s : string) : string :=
  match s with
  | EmptyString => EmptyString
  | String c r => String (lower_char c) (to_lower r)
  end.

(** Every byte is below 128. *)
Fixpoint ascii_text (s : string) : bool :=
  match s with
  | EmptyString => true
  | String c r => (Z.of_nat (nat_of_ascii c) <? 128) && ascii_text r
  end.

(** [s.includes(sub)]. *)
Fixpoint includes (s sub : string) : bool :=
  String.prefix sub s ||
  match s with
  | EmptyString => false
  | String _ r => includes r sub
  end.

Definition getRoastColor (roastLevel : string) : string :=
  let level := to_lower roastLevel in
  if includes level "light" && negb (includes level "medium") then "#C4A77D"
  else if includes level "medium-light" || includes level "medium light" then "#A68A4A"
  else if includes level "medium-dark" || includes level "medium dark" then "#5C3D1E"
  else if includes level "medium" then "#8B6914"
  else if includes level "dark" then "#3D2314"
  else "#8B6914".

(** ** Concrete inputs *)

(** The upstream text of the spec's example. *)
Definition spec_text : string :=
  qt "Sure! Here is the result: {'roastLevel':'Dark','temperature':'82','temperatureRange':'80-85°C','notes':'x'}".

Definition spec_object : string :=
  qt "{'roastLevel':'Dark','temperature':'82','temperatureRange':'80-85°C','notes':'x'}".

Definition spec_value : json :=
  JObj [("roastLevel", JStr "Dark"); ("temperature", JStr "82");
        ("temperatureRange", JStr "80-85°C"); ("notes", JStr "x")].

(** An upstream completion body whose content wraps a JSON object in prose. *)
Definition completion_body : string :=
  qt "{'choices':[{'message':{'content':'Here {\'roastLevel\':\'Dark\'} ok'}}]}".

Definition resp_ok : response := {| status := 200; body_text := completion_body |}.
Definition resp_502 : response := {| status := 502; body_text := "Bad Gateway" |}.

(** Upstreams: always down; down once then up; down once then 502. *)
Definition net_down (k : nat) : upstream := UNetError.
Definition net_flaky (k : nat) : upstream :=
  match k with O => UNetError | _ => UReply 100 resp_ok end.
Definition net_502 (k : nat) : upstream :=
  match k with O => UReply 20000 resp_ok | _ => UReply 100 resp_502 end.
Definition net_up (k : nat) : upstream := UReply 100 resp_ok.

(** A payload of 6144004 base64 characters: 4501 KB by the estimate. *)
Definition big_image : string := Pos.iter (String "A"%char) EmptyString 6144004%positive.

(** A request body carrying a payload under [imageBase64] and an empty
    [imageData]. *)
Definition body_both_fields : json :=
  JObj [("imageBase64", JStr "QUJD"); ("imageData", JStr "")].

Definition analyze_ok_reply : http_reply :=
  {| code := 200; reply_body := JObj [("roastLevel", JStr "Dark")] |}.

(** Upstream text whose object lacks [notes]. *)
Definition text_missing_notes : string :=
  qt "Result: {'roastLevel':'Dark','temperature':'82','temperatureRange':'80-85°C'}".

Definition value_missing_notes : json :=
  JObj [("roastLevel", JStr "Dark"); ("temperature", JStr "82");
        ("temperatureRange", JStr "80-85°C")].

(** [s] contains the character [c]. *)
Fixpoint has_char (c : ascii) (s : string) : bool :=
  match s with
  | EmptyString => false
  | String c' r => Ascii.eqb c c' || has_char c r
  end.

Definition dark_result : json :=
  JObj [("roastLevel", JStr "Dark"); ("temperature", JStr "82");
        ("temperatureRange", JStr "80-85°C"); ("notes", JStr "x")].

(** A press of the save button at time [t] ms. *)
Definition save_at (t : Z) : History.save_event := {|
  History.now_ms := t;
  History.now_iso := "2026-10-16T00:00:00.000Z";
  History.ev_image := Some (JStr "QUJD");
  History.ev_result := dark_result
|}.

(** A body with the payload under [imageData] and an [imageBase64] that
    reads as [0]. *)
Definition body_underflow : json :=
  JObj [("imageData", JStr "QUJD"); ("imageBase64", JNum "1e-400")].

(** The history after fifty saves, one a millisecond: full to the cap. *)
Definition full_history : option (list History.HistoryItem) :=
  History.save_all None (map (fun k => save_at (Z.of_nat k)) (seq 1 50)).

(** A save whose image was cleared while the analysis ran, of a reply with
    an odd set of fields. *)
Definition cleared_save : History.save_event := {|
  History.now_ms := 1760572800000;
  History.now_iso := "2026-10-16T00:00:00.000Z";
  History.ev_image := None;
  History.ev_result := JObj [("roastLevel", JStr "Dark"); ("temperature", JNull);
                             ("notes", JArr [JBool true; JStr "x"])]
|}.

(** * Properties *)

Example json_parse_ex1 :
  json_parse (qt " {'a' : [1, -2.5e+3, true, null], 'b':'x\/y'} ")
  = Some (JObj [("a", JArr [JNum "1"; JNum "-2.5e+3"; JBool true; JNull]);
                ("b", JStr "x/y")]).
Proof. vm_compute. reflexivity. Qed.

Example completion_body_parses :
  json_parse completion_body = Some (JObj [("choices", JArr [JObj [("message", JObj [("content", JStr (qt "Here {'roastLevel':'Dark'} ok"))])]])]).
Proof. vm_compute. reflexivity. Qed.

(** ** The retry loop *)

Definition call_to (url : string) (t : Z) : fetch_call :=
  {| fc_url := url; fc_timeout := Some t |}.

(** An attempt that fails at the transport level (error or abort). *)
Definition attempt_fails (u : upstream) (t : Z) : bool :=
  match attempt_outcome u (Some t) with
  | inl _ => false
  | inr _ => true
  end.

Lemma retry_loop_S (net : nat -> upstream) fuel attempt retries url t log :
  retry_loop net (S fuel) attempt retries url t log =
  match attempt_outcome (net (List.length log)) (Some t) with
  | inl r => (inl r, (log ++ [call_to url t])%list)
  | inr e =>
      if Nat.eqb attempt retries then (inr e, (log ++ [call_to url t])%list)
      else retry_loop net fuel (S attempt) retries url t (log ++ [call_to url t])%list
  end.
Proof.
  cbn [retry_loop]. unfold try_catch, fetch, throw.
  destruct (attempt_outcome _ _); [reflexivity |].
  destruct (Nat.eqb attempt retries); reflexivity.
Qed.

Lemma length_snoc {A} (l : list A) (x : A) :
  List.length (l ++ [x])%list = S (List.length l).
Proof. rewrite length_app. simpl. lia. Qed.

(** The first attempt that gets a reply, after [i] transport failures, ends
    the loop with that reply and [S i] calls. *)
Lemma retry_loop_first_reply (net : nat -> upstream) url t retries r :
  forall i attempt log,
    (attempt + i <= retries)%nat ->
    (forall j, (j < i)%nat -> attempt_fails (net (List.length log + j)%nat) t = true) ->
    attempt_outcome (net (List.length log + i)%nat) (Some t) = inl r ->
    retry_loop net (S (retries - attempt)) attempt retries url t log
    = (inl r, (log ++ repeat (call_to url t) (S i))%list).
Proof.
  induction i as [| i IH]; intros attempt log Hle Hfail Hok.
  - rewrite retry_loop_S. rewrite Nat.add_0_r in Hok. rewrite Hok. reflexivity.
  - rewrite retry_loop_S.
    specialize (Hfail 0%nat ltac:(lia)) as H0. rewrite Nat.add_0_r in H0.
    unfold attempt_fails in H0.
    destruct (attempt_outcome (net (List.length log)) (Some t)) as [r0 | e0] eqn:E0;
      [discriminate |].
    replace (Nat.eqb attempt retries) with false by (symmetry; apply Nat.eqb_neq; lia).
    replace (retries - attempt)%nat with (S (retries - S attempt)) by lia.
    rewrite (IH (S attempt) (log ++ [call_to url t])%list).
    + rewrite <- app_assoc. reflexivity.
    + lia.
    + intros j Hj. rewrite length_snoc.
      replace (S (List.length log) + j)%nat with (List.length log + S j)%nat by lia.
      apply Hfail. lia.
    + rewrite length_snoc.
      replace (S (List.length log) + i)%nat with (List.length log + S i)%nat by lia.
      exact Hok.
Qed.

(** When every attempt fails, the loop makes [S retries] calls and throws
    the last failure. *)
Lemma retry_loop_all_fail (net : nat -> upstream) url t retries e :
  forall attempt log,
    (attempt <= retries)%nat ->
    (forall j, (j < retries - attempt)%nat ->
               attempt_fails (net (List.length log + j)%nat) t = true) ->
    attempt_outcome (net (List.length log + (retries - attempt))%nat) (Some t) = inr e ->
    retry_loop net (S (retries - attempt)) attempt retries url t log
    = (inr e, (log ++ repeat (call_to url t) (S (retries - attempt)))%list).
Proof.
  intros attempt log Hle. remember (retries - attempt)%nat as k eqn:Hk.
  revert attempt log Hle Hk.
  induction k as [| k IH]; intros attempt log Hle Hk Hfail Hlast.
  - rewrite retry_loop_S. rewrite Nat.add_0_r in Hlast. rewrite Hlast.
    replace (Nat.eqb attempt retries) with true by (symmetry; apply Nat.eqb_eq; lia).
    reflexivity.
  - rewrite retry_loop_S.
    specialize (Hfail 0%nat ltac:(lia)) as H0. rewrite Nat.add_0_r in H0.
    unfold attempt_fails in H0.
    destruct (attempt_outcome (net (List.length log)) (Some t)) as [r0 | e0] eqn:E0;
      [discriminate |].
    replace (Nat.eqb attempt retries) with false by (symmetry; apply Nat.eqb_neq; lia).
    rewrite (IH (S attempt) (log ++ [call_to url t])%list).
    + rewrite <- app_assoc. reflexivity.
    + lia.
    + lia.
    + intros j Hj. rewrite length_snoc.
      replace (S (List.length log) + j)%nat with (List.length log + S j)%nat by lia.
      apply Hfail. lia.
    + rewrite length_snoc.
      replace (S (List.length log) + k)%nat with (List.length log + S k)%nat by lia.
      exact Hlast.
Qed.

(** C2: with retry limit 2, a transport failure on attempt 1 followed by a
    reply on attempt 2 returns that reply after exactly 2 calls; three
    transport failures make exactly 3 calls and throw the last failure. *)
Theorem fetchWithRetry_two_retries (net : nat -> upstream) url t log :
  (forall r,
     attempt_fails (net (List.length log)) t = true ->
     attempt_outcome (net (S (List.length log))) (Some t) = inl r ->
     fetchWithRetry net url 2 t log
     = (inl r, (log ++ [call_to url t; call_to url t])%list))
  /\
  (forall e,
     attempt_fails (net (List.length log)) t = true ->
     attempt_fails (net (S (List.length log))) t = true ->
     attempt_outcome (net (S (S (List.length log)))) (Some t) = inr e ->
     fetchWithRetry net url 2 t log
     = (inr e, (log ++ [call_to url t; call_to url t; call_to url t])%list)).
Proof.
  split.
  - intros r H0 H1. unfold fetchWithRetry.
    change (retry_loop net (S (2 - 0)) 0 2 url t log
            = (inl r, (log ++ repeat (call_to url t) 2)%list)).
    apply retry_loop_first_reply.
    + lia.
    + intros j Hj. replace j with 0%nat by lia. rewrite Nat.add_0_r. exact H0.
    + rewrite Nat.add_1_r. exact H1.
  - intros e H0 H1 H2. unfold fetchWithRetry.
    change (retry_loop net (S (2 - 0)) 0 2 url t log
            = (inr e, (log ++ repeat (call_to url t) (S (2 - 0)))%list)).
    apply retry_loop_all_fail.
    + lia.
    + intros j Hj. simpl in Hj.
      destruct j as [| [| j]]; [rewrite Nat.add_0_r; exact H0
                              | rewrite Nat.add_1_r; exact H1 | lia].
    + replace (List.length log + (2 - 0))%nat with (S (S (List.length log))) by lia.
      exact H2.
Qed.

Lemma fetchWithRetry_two_retries_witness :
  (attempt_fails (net_flaky 0) 15000 = true
   /\ attempt_outcome (net_flaky 1) (Some 15000) = inl resp_ok
   /\ fetchWithRetry net_flaky url_routellm 2 15000 []
      = (inl resp_ok, [call_to url_routellm 15000; call_to url_routellm 15000]))
  /\
  (attempt_fails (net_down 0) 15000 = true
   /\ attempt_fails (net_down 1) 15000 = true
   /\ attempt_outcome (net_down 2) (Some 15000) = inr FetchFailed
   /\ fetchWithRetry net_down url_routellm 2 15000 []
      = (inr FetchFailed, [call_to url_routellm 15000; call_to url_routellm 15000;
                           call_to url_routellm 15000])).
Proof.
  split.
  - split; [reflexivity | split; [reflexivity |]].
    apply (proj1 (fetchWithRetry_two_retries net_flaky url_routellm 15000 []));
      reflexivity.
  - split; [reflexivity | split; [reflexivity | split; [reflexivity |]]].
    apply (proj2 (fetchWithRetry_two_retries net_down url_routellm 15000 []));
      reflexivity.
Defined.

(** C5: when the first attempt that gets through (after [i] transport
    failures, [i <= 2]) brings a non-2xx response, [analyzeWithAbacus]
    makes no further call and throws [RouteLLMError] with the status and
    the body text. *)
Theorem analyzeWithAbacus_non2xx_no_retry (net : nat -> upstream) apiKey img log i r :
  configured apiKey = true ->
  base64SizeKB img <= 4500 ->
  (i <= 2)%nat ->
  (forall j, (j < i)%nat -> attempt_fails (net (List.length log + j)%nat) 15000 = true) ->
  attempt_outcome (net (List.length log + i)%nat) (Some 15000) = inl r ->
  ok r = false ->
  analyzeWithAbacus net apiKey img log
  = (inr (RouteLLMError (status r) (body_text r)),
     (log ++ repeat (call_to url_routellm 15000) (S i))%list).
Proof.
  intros Hkey Hsize Hi Hfail Hr Hok.
  pose proof (retry_loop_first_reply net url_routellm 15000 2 r i 0 log) as E.
  cbn [Nat.sub Nat.add] in E.
  unfold analyzeWithAbacus. rewrite Hkey.
  replace (4500 <? base64SizeKB img) with false by (symmetry; apply Z.ltb_ge; lia).
  unfold bind, fetchWithRetry. cbn [negb]. cbv beta iota zeta.
  rewrite E by (try lia; assumption).
  rewrite Hok. reflexivity.
Qed.

Lemma analyzeWithAbacus_non2xx_no_retry_witness :
  configured (Some "key") = true
  /\ base64SizeKB "QUJD" <= 4500
  /\ attempt_fails (net_502 0) 15000 = true
  /\ attempt_outcome (net_502 1) (Some 15000) = inl resp_502
  /\ ok resp_502 = false
  /\ analyzeWithAbacus net_502 (Some "key") "QUJD" []
     = (inr (RouteLLMError 502 "Bad Gateway"),
        [call_to url_routellm 15000; call_to url_routellm 15000]).
Proof.
  split; [reflexivity |]. split; [vm_compute; discriminate |].
  split; [reflexivity |]. split; [reflexivity |]. split; [reflexivity |].
  apply (analyzeWithAbacus_non2xx_no_retry net_502 (Some "key") "QUJD" [] 1 resp_502).
  - reflexivity.
  - vm_compute. discriminate.
  - lia.
  - intros j Hj. replace j with 0%nat by lia. reflexivity.
  - reflexivity.
  - reflexivity.
Defined.

(** C7: the health check makes exactly one call, with a 5000 ms timeout,
    and answers 200 [{status:"ok"}] on a timely 2xx reply and 503
    [{status:"down"}] on every other outcome. *)
Theorem get_health_abacus_binary (net : nat -> upstream) log :
  get_health_abacus net log
  = (inl (match attempt_outcome (net (List.length log)) (Some 5000) with
          | inl r =>
              if ok r then {| code := 200; reply_body := json_status "ok" |}
              else {| code := 503; reply_body := json_status "down" |}
          | inr _ => {| code := 503; reply_body := json_status "down" |}
          end),
     (log ++ [call_to url_routellm 5000])%list).
Proof.
  unfold get_health_abacus, try_catch, bind, fetchWithRetry.
  rewrite retry_loop_S.
  destruct (attempt_outcome (net (List.length log)) (Some 5000)) as [r | e].
  - destruct (ok r); reflexivity.
  - reflexivity.
Qed.

(** ** The pre-flight guards of [analyzeWithAbacus] *)

Lemma length_acc_ge s : forall acc, acc <= length_acc s acc.
Proof.
  induction s as [| c s IH]; intros acc; simpl; [lia |].
  specialize (IH (Z.succ acc)). lia.
Qed.

Lemma js_length_nonneg s : 0 <= js_length s.
Proof. apply length_acc_ge. Qed.

(** The ceiling is crossed exactly above 6144000 characters, whether the
    estimate rounds up before or after converting to KB. *)
Lemma base64SizeKB_over_iff img :
  4500 < base64SizeKB img <-> 6144000 < js_length img.
Proof.
  unfold base64SizeKB. pose proof (js_length_nonneg img).
  pose proof (Z.div_mod (js_length img * 3 + 4095) 4096 ltac:(lia)).
  pose proof (Z.mod_pos_bound (js_length img * 3 + 4095) 4096 ltac:(lia)).
  split; intros; nia.
Qed.

Lemma ceil_bytes_then_kb_over_iff img :
  4500 * 1024 < (js_length img * 3 + 3) / 4 <-> 6144000 < js_length img.
Proof.
  pose proof (js_length_nonneg img).
  pose proof (Z.div_mod (js_length img * 3 + 3) 4 ltac:(lia)).
  pose proof (Z.mod_pos_bound (js_length img * 3 + 3) 4 ltac:(lia)).
  split; intros; nia.
Qed.

(** C1, the claim as stated: an oversized payload with no
    [ABACUS_API_KEY] fails with [NotConfigured], not [ImageTooLarge]. *)
Lemma analyzeWithAbacus_oversized_unconfigured :
  4500 < base64SizeKB big_image
  /\ analyzeWithAbacus net_up None big_image [] = (inr NotConfigured, []).
Proof. split; vm_compute; reflexivity. Qed.

(** C1 (amended): a payload estimated above 4500 KB makes no network call;
    it fails with [TooLarge] when the key is configured, and with
    [NotConfigured] (checked first) otherwise. *)
Theorem analyzeWithAbacus_size_guard (net : nat -> upstream) apiKey img log :
  4500 < base64SizeKB img ->
  analyzeWithAbacus net apiKey img log
  = (inr (if configured apiKey then TooLarge (base64SizeKB img) else NotConfigured), log).
Proof.
  intros Hbig. unfold analyzeWithAbacus.
  destruct (configured apiKey); [| reflexivity].
  cbn [negb]. replace (4500 <? base64SizeKB img) with true
    by (symmetry; apply Z.ltb_lt; exact Hbig).
  reflexivity.
Qed.

Lemma analyzeWithAbacus_size_guard_witness :
  4500 < base64SizeKB big_image
  /\ analyzeWithAbacus net_up (Some "key") big_image []
     = (inr (TooLarge (base64SizeKB big_image)), []).
Proof.
  split; [vm_compute; reflexivity |].
  apply (analyzeWithAbacus_size_guard net_up (Some "key") big_image []).
  vm_compute. reflexivity.
Defined.

(** ** The [POST /api/analyze] handler *)

(** C6, the claim as stated: with [imageData] empty and the payload under
    [imageBase64], the handler does not answer 400 and calls the upstream. *)
Lemma post_analyze_ignores_imageData :
  get_prop body_both_fields "imageData" = Some (JStr "")
  /\ post_analyze net_up (Some "key") body_both_fields []
     = (inl analyze_ok_reply, [call_to url_routellm 15000]).
Proof. split; vm_compute; reflexivity. Qed.

Lemma json_eq_null (v : json) : v = JNull \/ v <> JNull.
Proof. destruct v; [left; reflexivity | right; discriminate ..]. Qed.

Lemma analyze_route_nonnull analyze body log :
  body <> JNull ->
  analyze_route analyze body log =
  match get_prop body "imageBase64" with
  | Some v =>
      if negb (truthy (Some v)) then
        (inl {| code := 400; reply_body := json_error "Image data is required" |}, log)
      else
        match analyze v log with
        | (inl r, log') => (inl {| code := 200; reply_body := r |}, log')
        | (inr e, log') => (inl {| code := 500; reply_body := json_error (error_message e) |}, log')
        end
  | None => (inl {| code := 400; reply_body := json_error "Image data is required" |}, log)
  end.
Proof.
  intros Hn. unfold analyze_route.
  assert (E : forall A (x y : A), match body with JNull => x | _ => y end = y)
    by (destruct body; [congruence | reflexivity ..]).
  rewrite E. cbv zeta.
  destruct (get_prop body "imageBase64") as [v |]; [| reflexivity].
  destruct (negb (truthy (Some v))); [reflexivity |].
  unfold try_catch, bind, ret. destruct (analyze v log) as [[r | e] log']; reflexivity.
Qed.

(** C6 (amended): the payload is read from [imageBase64]; for every
    request body but [null] (whose destructuring throws), when [imageBase64]
    is absent or falsy (such as [""], [0], [false], [null], or a number
    like [1e-400] that reads as [0]), both handlers answer 400
    [{error: "Image data is required"}] and make no network call. *)
Theorem post_analyze_missing_image (net : nat -> upstream) apiKey body log :
  body <> JNull ->
  truthy (get_prop body "imageBase64") = false ->
  post_analyze net apiKey body log
  = (inl {| code := 400; reply_body := json_error "Image data is required" |}, log)
  /\ post_analyze_ts net apiKey body log
  = (inl {| code := 400; reply_body := json_error "Image data is required" |}, log).
Proof.
  intros Hn H. unfold post_analyze, post_analyze_ts.
  rewrite !analyze_route_nonnull by exact Hn.
  destruct (get_prop body "imageBase64") as [v |]; [rewrite H |]; split; reflexivity.
Qed.

Lemma post_analyze_missing_image_witness :
  body_underflow <> JNull
  /\ truthy (get_prop body_underflow "imageBase64") = false
  /\ post_analyze net_up (Some "key") body_underflow []
     = (inl {| code := 400; reply_body := json_error "Image data is required" |}, [])
  /\ post_analyze_ts net_up (Some "key") body_underflow []
     = (inl {| code := 400; reply_body := json_error "Image data is required" |}, []).
Proof.
  assert (H1 : body_underflow <> JNull) by discriminate.
  assert (H2 : truthy (get_prop body_underflow "imageBase64") = false)
    by (vm_compute; reflexivity).
  split; [exact H1 |]. split; [exact H2 |].
  exact (post_analyze_missing_image net_up (Some "key") body_underflow [] H1 H2).
Defined.

(** ** The [routes.ts] variant of [analyzeWithAbacus] *)

Lemma read_result_log r log : snd (read_result r log) = log.
Proof.
  unfold read_result, throw, lift.
  destruct (json_parse (body_text r)) as [data |]; [| reflexivity].
  destruct (content_of data) as [c | e]; [| reflexivity].
  destruct (negb (truthy c)); [reflexivity |].
  destruct c as [[] |]; reflexivity.
Qed.

(** C10, the claim as stated: with no [ABACUS_API_KEY] the [routes.ts]
    analysis makes no upstream call for a non-empty payload. *)
Lemma analyzeWithAbacus_ts_unconfigured :
  analyzeWithAbacus_ts net_up None "QUJD" [] = (inr NotConfigured, []).
Proof. reflexivity. Qed.

(** C10 (amended): the [routes.ts] analysis makes exactly one call, with no
    timeout, for every payload whatever its size when the key is
    configured, and none otherwise; it differs from the [part_002] one,
    e.g. on an oversized payload. *)
Theorem analyzeWithAbacus_ts_single_call :
  (forall (net : nat -> upstream) apiKey img log,
     snd (analyzeWithAbacus_ts net apiKey img log)
     = (log ++ (if configured apiKey
                then [{| fc_url := url_abacus_v0; fc_timeout := None |}] else []))%list)
  /\ analyzeWithAbacus_ts net_up (Some "key") big_image []
     <> analyzeWithAbacus net_up (Some "key") big_image [].
Proof.
  split.
  - intros net apiKey img log. unfold analyzeWithAbacus_ts.
    destruct (configured apiKey); cbn [negb].
    + unfold bind, fetch. destruct (attempt_outcome _ _) as [r | e]; [| reflexivity].
      destruct (negb (ok r)); [reflexivity |]. apply read_result_log.
    + rewrite app_nil_r. reflexivity.
  - vm_compute. discriminate.
Qed.

(** ** Response extraction *)

(** C3, the claim as stated: valid JSON missing [notes] is returned as the
    result. *)
Lemma extract_missing_notes :
  extract text_missing_notes = inl value_missing_notes.
Proof. vm_compute. reflexivity. Qed.

(** C3 (amended): the extraction checks no field: its only failures are
    [CouldNotParse] (no span) and [SyntaxError] (span not JSON); a span that
    parses is returned as is, and [analyzeWithAbacus] passes it on. *)
Theorem extract_no_field_check :
  (forall s e, extract s = inr e -> e = CouldNotParse \/ e = SyntaxError)
  /\ (forall s span v, brace_span s = Some span -> json_parse span = Some v ->
                       extract s = inl v)
  /\ (forall (net : nat -> upstream) apiKey img log resp log' data s v,
        configured apiKey = true ->
        base64SizeKB img <= 4500 ->
        fetchWithRetry net url_routellm 2 15000 log = (inl resp, log') ->
        ok resp = true ->
        json_parse (body_text resp) = Some data ->
        content_of data = inl (Some (JStr s)) ->
        s <> "" ->
        extract s = inl v ->
        analyzeWithAbacus net apiKey img log = (inl v, log')).
Proof.
  split; [| split].
  - intros s e. unfold extract.
    destruct (brace_span s) as [span |]; [| intros H; injection H; auto].
    destruct (json_parse span); intros H; [discriminate | injection H; auto].
  - intros s span v Hs Hp. unfold extract. rewrite Hs, Hp. reflexivity.
  - intros net apiKey img log resp log' data s v Hkey Hsize Hf Hok Hbody Hc Hs Hx.
    unfold analyzeWithAbacus. rewrite Hkey.
    replace (4500 <? base64SizeKB img) with false by (symmetry; apply Z.ltb_ge; lia).
    cbn [negb]. unfold bind. rewrite Hf, Hok. cbn [negb].
    unfold read_result, lift. rewrite Hbody, Hc. cbn [truthy].
    destruct (String.eqb s "") eqn:E.
    + apply String.eqb_eq in E. contradiction.
    + cbn [negb]. rewrite Hx. reflexivity.
Qed.

Lemma extract_no_field_check_witness :
  extract text_missing_notes = inl value_missing_notes
  /\ analyzeWithAbacus net_up (Some "key") "QUJD" []
     = (inl (JObj [("roastLevel", JStr "Dark")]), [call_to url_routellm 15000]).
Proof.
  destruct extract_no_field_check as [_ [Hspan Hrun]]. split.
  - apply (Hspan text_missing_notes (qt "{'roastLevel':'Dark','temperature':'82','temperatureRange':'80-85°C'}")); vm_compute; reflexivity.
  - apply (Hrun net_up (Some "key") "QUJD" [] resp_ok [call_to url_routellm 15000]
             (JObj [("choices", JArr [JObj [("message", JObj [("content", JStr (qt "Here {'roastLevel':'Dark'} ok"))])]])])
             (qt "Here {'roastLevel':'Dark'} ok")).
    + reflexivity.
    + vm_compute. discriminate.
    + reflexivity.
    + reflexivity.
    + vm_compute. reflexivity.
    + reflexivity.
    + vm_compute. discriminate.
    + vm_compute. reflexivity.
Defined.

Lemma upto_last_close_none s :
  has_char "}"%char s = false -> upto_last_close s = None.
Proof.
  induction s as [| c s IH]; cbn [upto_last_close has_char]; [reflexivity |].
  intros H. apply orb_false_iff in H as [Hc Hs].
  rewrite IH by exact Hs. rewrite Ascii.eqb_sym, Hc. reflexivity.
Qed.

Lemma upto_last_close_app x y m :
  upto_last_close y = Some m -> upto_last_close (x ++ y) = Some (x ++ m).
Proof.
  intros H. induction x as [| c x IH]; simpl; [exact H |].
  rewrite IH. reflexivity.
Qed.

Lemma brace_span_skip pre s :
  has_char "{"%char pre = false -> brace_span (pre ++ s) = brace_span s.
Proof.
  induction pre as [| c pre IH]; cbn [brace_span has_char append]; [reflexivity |].
  intros H. apply orb_false_iff in H as [Hc Hp].
  rewrite Ascii.eqb_sym, Hc. apply IH, Hp.
Qed.

(** C4, the claim as stated: trailing prose with a ['}'] makes the span run
    past the object, and the text is not extracted. *)
Lemma extract_trailing_brace :
  json_parse spec_object = Some spec_value
  /\ extract ("Sure! Here is the result: " ++ spec_object ++ " Enjoy :}") = inr SyntaxError.
Proof. split; vm_compute; reflexivity. Qed.

(** C4 (amended): the span runs from the first ['{'] to the last ['}'];
    when the prose before the object has no ['{'] and the prose after it no
    ['}'], it is exactly the object, which is then parsed; the spec's
    example yields exactly the embedded object. *)
Theorem extract_first_to_last_brace :
  (forall pre inner post,
     has_char "{"%char pre = false ->
     has_char "}"%char post = false ->
     brace_span (pre ++ "{" ++ inner ++ "}" ++ post) = Some ("{" ++ inner ++ "}")
     /\ extract (pre ++ "{" ++ inner ++ "}" ++ post)
        = match json_parse ("{" ++ inner ++ "}") with
          | Some v => inl v
          | None => inr SyntaxError
          end)
  /\ extract spec_text = inl spec_value.
Proof.
  split.
  - intros pre inner post Hpre Hpost.
    assert (Hspan : brace_span (pre ++ "{" ++ inner ++ "}" ++ post)
                    = Some ("{" ++ inner ++ "}")).
    { rewrite brace_span_skip by exact Hpre. cbn [append brace_span].
      rewrite (upto_last_close_app inner (String "}" post) "}").
      - reflexivity.
      - cbn [upto_last_close]. rewrite upto_last_close_none by exact Hpost.
        reflexivity. }
    split; [exact Hspan |].
    unfold extract. rewrite Hspan. reflexivity.
  - vm_compute. reflexivity.
Qed.

Lemma extract_first_to_last_brace_witness :
  has_char "{"%char "Sure! Here is the result: " = false
  /\ has_char "}"%char " Thanks." = false
  /\ brace_span ("Sure! Here is the result: " ++ "{" ++ "x" ++ "}" ++ " Thanks.")
     = Some "{x}".
Proof.
  split; [reflexivity | split; [reflexivity |]].
  apply (proj1 extract_first_to_last_brace "Sure! Here is the result: " "x" " Thanks.");
    reflexivity.
Defined.

(** ** The history store *)

Lemma firstn_app_firstn {A} n (l1 l2 : list A) :
  firstn n (l1 ++ firstn n l2) = firstn n (l1 ++ l2).
Proof.
  rewrite !firstn_app, firstn_firstn.
  f_equal. f_equal. lia.
Qed.

Lemma save_all_cons evs :
  forall st ev,
    History.save_all st (ev :: evs)
    = Some (firstn 50 (rev (map History.newItem (ev :: evs)) ++ History.stored_history st)).
Proof.
  induction evs as [| ev' evs IH]; intros st ev.
  - reflexivity.
  - change (History.save_all st (ev :: ev' :: evs))
      with (History.save_all (History.handleSaveToHistory st ev) (ev' :: evs)).
    rewrite IH. unfold History.handleSaveToHistory. cbn [History.stored_history].
    rewrite firstn_app_firstn. f_equal. f_equal.
    cbn [map rev]. rewrite <- !app_assoc. reflexivity.
Qed.

(** C8: every save prepends the new entry and keeps the first 50 entries;
    from an empty store, a run of saves keeps the 50 most recent ones,
    newest first. *)
Theorem save_prepends_and_caps (st : option (list History.HistoryItem)) ev evs :
  History.save_all st (ev :: evs)
  = Some (firstn 50 (rev (map History.newItem (ev :: evs)) ++ History.stored_history st))
  /\ (List.length (History.stored_history (History.save_all st (ev :: evs))) <= 50)%nat
  /\ History.save_all None (ev :: evs)
     = Some (rev (skipn (List.length (ev :: evs) - 50) (map History.newItem (ev :: evs)))).
Proof.
  split; [| split].
  - apply save_all_cons.
  - rewrite save_all_cons. cbn [History.stored_history]. apply firstn_le_length.
  - rewrite save_all_cons. cbn [History.stored_history]. rewrite app_nil_r.
    rewrite firstn_rev, length_map. reflexivity.
Qed.

(** C9, the claim as stated: two saves in the same millisecond store two
    entries with one id. *)
Lemma save_same_millisecond_duplicate_ids :
  ~ NoDup (map History.id
             (History.stored_history (History.save_all None [save_at 1760572800000;
                                                             save_at 1760572800000]))).
Proof.
  vm_compute. intros H. inversion H as [| x l Hnotin Hrest].
  apply Hnotin. left. reflexivity.
Qed.

(** C9 (amended): the stored collection is always a prefix of the saved
    entries, newest first, followed by the earlier collection (never
    re-sorted); its ids are unique whenever the ids of those entries
    ([Date.now()] at each save) and of the earlier collection are. *)
Theorem save_all_order_and_ids (st : option (list History.HistoryItem)) evs :
  (exists n, History.stored_history (History.save_all st evs)
             = firstn n (rev (map History.newItem evs) ++ History.stored_history st))
  /\ (NoDup (map History.id (rev (map History.newItem evs) ++ History.stored_history st)) ->
      NoDup (map History.id (History.stored_history (History.save_all st evs)))).
Proof.
  assert (Hpre : exists n, History.stored_history (History.save_all st evs)
             = firstn n (rev (map History.newItem evs) ++ History.stored_history st)).
  { destruct evs as [| ev evs].
    - exists (List.length (History.stored_history st)). rewrite firstn_all. reflexivity.
    - exists 50%nat. rewrite save_all_cons. reflexivity. }
  split; [exact Hpre |].
  intros Hnd. destruct Hpre as [n ->]. rewrite <- firstn_map.
  apply (NoDup_app_remove_r _ (skipn n (map History.id
          (rev (map History.newItem evs) ++ History.stored_history st)))).
  rewrite firstn_skipn. exact Hnd.
Qed.

Lemma save_all_order_and_ids_witness :
  NoDup (map History.id (rev (map History.newItem [save_at 1; save_at 2]) ++ []))
  /\ NoDup (map History.id (History.stored_history (History.save_all None [save_at 1; save_at 2]))).
Proof.
  assert (H : NoDup (map History.id (rev (map History.newItem [save_at 1; save_at 2]) ++ []))).
  { vm_compute. constructor.
    - intros [E | []]. discriminate.
    - constructor; [intros [] | constructor]. }
  split; [exact H |].
  apply (proj2 (save_all_order_and_ids None [save_at 1; save_at 2])). exact H.
Defined.

(** * Further properties of the code *)

(** ** The retry loop in general *)

Lemma retry_loop_general (net : nat -> upstream) url t retries :
  forall d attempt log,
    (attempt + d)%nat = retries ->
    exists k, (k <= d)%nat
      /\ retry_loop net (S d) attempt retries url t log
         = (attempt_outcome (net (List.length log + k)%nat) (Some t),
            (log ++ repeat (call_to url t) (S k))%list)
      /\ (forall j, (j < k)%nat -> attempt_fails (net (List.length log + j)%nat) t = true)
      /\ ((k < d)%nat -> attempt_fails (net (List.length log + k)%nat) t = false).
Proof.
  induction d as [| d IH]; intros attempt log Hd.
  - exists 0%nat. split; [lia |]. split; [| split; [intros; lia | intros; lia]].
    rewrite retry_loop_S, Nat.add_0_r.
    replace (Nat.eqb attempt retries) with true by (symmetry; apply Nat.eqb_eq; lia).
    destruct (attempt_outcome _ _); reflexivity.
  - rewrite retry_loop_S.
    destruct (attempt_outcome (net (List.length log)) (Some t)) as [r | e] eqn:E0.
    + exists 0%nat. rewrite Nat.add_0_r, E0. split; [lia |].
      split; [reflexivity |]. split; [intros; lia |].
      intros _. unfold attempt_fails. rewrite E0. reflexivity.
    + replace (Nat.eqb attempt retries) with false by (symmetry; apply Nat.eqb_neq; lia).
      destruct (IH (S attempt) (log ++ [call_to url t])%list ltac:(lia))
        as [k [Hk [Hrun [Hfail Hstop]]]].
      rewrite length_snoc in Hrun, Hfail, Hstop.
      exists (S k). split; [lia |].
      split; [| split].
      * rewrite Hrun, <- app_assoc.
        replace (S (List.length log) + k)%nat with (List.length log + S k)%nat by lia.
        reflexivity.
      * intros [| j] Hj.
        -- rewrite Nat.add_0_r. unfold attempt_fails. rewrite E0. reflexivity.
        -- replace (List.length log + S j)%nat with (S (List.length log) + j)%nat by lia.
           apply Hfail. lia.
      * intros Hlt.
        replace (List.length log + S k)%nat with (S (List.length log) + k)%nat by lia.
        apply Hstop. lia.
Qed.

(** [fetchWithRetry] with [retries] makes between 1 and [retries + 1]
    calls, all to [url] with the same timeout; it stops at the first attempt
    that gets a reply and otherwise returns the failure of attempt
    [retries + 1]: its outcome is always that of its last attempt, so it
    never reaches [throw new Error("Unreachable")]. *)
Theorem fetchWithRetry_first_reply_or_last_failure (net : nat -> upstream) url retries t log :
  exists k, (k <= retries)%nat
    /\ fetchWithRetry net url retries t log
       = (attempt_outcome (net (List.length log + k)%nat) (Some t),
          (log ++ repeat (call_to url t) (S k))%list)
    /\ (forall j, (j < k)%nat -> attempt_fails (net (List.length log + j)%nat) t = true)
    /\ ((k < retries)%nat -> attempt_fails (net (List.length log + k)%nat) t = false).
Proof.
  unfold fetchWithRetry. apply retry_loop_general. lia.
Qed.

Lemma fetchWithRetry_log (net : nat -> upstream) url retries t log :
  exists k, (k <= retries)%nat
    /\ snd (fetchWithRetry net url retries t log)
       = (log ++ repeat (call_to url t) (S k))%list.
Proof.
  unfold fetchWithRetry.
  destruct (retry_loop_general net url t retries retries 0 log ltac:(lia))
    as [k [Hk [Hrun _]]].
  exists k. split; [exact Hk |]. rewrite Hrun. reflexivity.
Qed.

(** [analyzeWithAbacus] ([part_002]) makes at most 3 calls, all to the
    RouteLLM endpoint with a 15000 ms timeout, and none when the key is
    missing or the payload is over the ceiling. *)
Theorem analyzeWithAbacus_calls (net : nat -> upstream) apiKey img log :
  exists k, (k <= 3)%nat
    /\ snd (analyzeWithAbacus net apiKey img log)
       = (log ++ repeat (call_to url_routellm 15000) k)%list
    /\ ((configured apiKey = false \/ 4500 < base64SizeKB img) -> k = 0%nat).
Proof.
  unfold analyzeWithAbacus.
  destruct (configured apiKey) eqn:Hkey; cbn [negb].
  - destruct (4500 <? base64SizeKB img) eqn:Hsize.
    + exists 0%nat. split; [lia |]. split; [simpl; rewrite app_nil_r; reflexivity |].
      intros _. reflexivity.
    + apply Z.ltb_ge in Hsize.
      destruct (fetchWithRetry_log net url_routellm 2 15000 log) as [k [Hk Hlog]].
      exists (S k). split; [lia |]. split.
      * unfold bind. destruct (fetchWithRetry net url_routellm 2 15000 log) as [[r | e] log'].
        -- simpl in Hlog. subst log'.
           destruct (negb (ok r)); [reflexivity |]. apply read_result_log.
        -- exact Hlog.
      * intros [H | H]; [discriminate | lia].
  - exists 0%nat. split; [lia |]. split; [simpl; rewrite app_nil_r; reflexivity |].
    intros _. reflexivity.
Qed.

(** [analyzeWithAbacus] returns a result only through a 2xx response whose
    [choices[0].message.content] is a non-empty string from which the
    extraction succeeds; the result is the extracted value. *)
Theorem analyzeWithAbacus_result_source (net : nat -> upstream) apiKey img log v log' :
  analyzeWithAbacus net apiKey img log = (inl v, log') ->
  exists resp data s,
    configured apiKey = true
    /\ base64SizeKB img <= 4500
    /\ fetchWithRetry net url_routellm 2 15000 log = (inl resp, log')
    /\ ok resp = true
    /\ json_parse (body_text resp) = Some data
    /\ content_of data = inl (Some (JStr s))
    /\ s <> ""
    /\ extract s = inl v.
Proof.
  unfold analyzeWithAbacus.
  destruct (configured apiKey) eqn:Hkey; cbn [negb]; [| discriminate].
  destruct (4500 <? base64SizeKB img) eqn:Hsize; [discriminate |].
  apply Z.ltb_ge in Hsize. unfold bind.
  destruct (fetchWithRetry net url_routellm 2 15000 log) as [[resp | e] l1] eqn:Hf;
    [| discriminate].
  destruct (ok resp) eqn:Hok; cbn [negb]; [| discriminate].
  unfold read_result, throw, lift.
  destruct (json_parse (body_text resp)) as [data |] eqn:Hbody; [| discriminate].
  destruct (content_of data) as [c | e] eqn:Hc; [| discriminate].
  destruct (truthy c) eqn:Ht; cbn [negb]; [| discriminate].
  destruct c as [[| b | lx | s | xs | kvs] |]; try discriminate.
  intros H. injection H as Hx Hl. subst l1.
  exists resp, data, s. repeat split; auto.
  intros Hs. subst s. discriminate.
Qed.

Lemma analyzeWithAbacus_result_source_witness :
  analyzeWithAbacus net_up (Some "key") "QUJD" []
  = (inl (JObj [("roastLevel", JStr "Dark")]), [call_to url_routellm 15000])
  /\ exists resp data s,
    configured (Some "key") = true
    /\ base64SizeKB "QUJD" <= 4500
    /\ fetchWithRetry net_up url_routellm 2 15000 [] = (inl resp, [call_to url_routellm 15000])
    /\ ok resp = true
    /\ json_parse (body_text resp) = Some data
    /\ content_of data = inl (Some (JStr s))
    /\ s <> ""
    /\ extract s = inl (JObj [("roastLevel", JStr "Dark")]).
Proof.
  assert (H : analyzeWithAbacus net_up (Some "key") "QUJD" []
              = (inl (JObj [("roastLevel", JStr "Dark")]), [call_to url_routellm 15000]))
    by (vm_compute; reflexivity).
  split; [exact H |].
  exact (analyzeWithAbacus_result_source net_up (Some "key") "QUJD" [] _ _ H).
Defined.

(** ** The extraction's regular expression *)

Lemma append_assoc (a b c : string) : ((a ++ b) ++ c = a ++ b ++ c)%string.
Proof. induction a as [| x a IH]; cbn; [reflexivity | rewrite IH; reflexivity]. Qed.

Lemma has_char_app_here c a b :
  has_char c (a ++ String c b)%string = true.
Proof.
  induction a as [| c' a IH]; cbn [append has_char].
  - rewrite Ascii.eqb_refl. reflexivity.
  - rewrite IH. apply orb_true_r.
Qed.

Lemma upto_last_close_some r :
  has_char "}"%char r = true -> exists m, upto_last_close r = Some m.
Proof.
  induction r as [| c r IH]; cbn [has_char upto_last_close]; [discriminate |].
  intros H. destruct (upto_last_close r) as [m |] eqn:E; [eauto |].
  apply orb_true_iff in H as [H | H].
  - rewrite Ascii.eqb_sym, H. eauto.
  - destruct (IH H) as [m Hm]. congruence.
Qed.

Lemma upto_last_close_shape r m :
  upto_last_close r = Some m ->
  exists inner post, m = (inner ++ "}")%string /\ r = (m ++ post)%string
                     /\ has_char "}"%char post = false.
Proof.
  revert m. induction r as [| c r IH]; intros m; cbn [upto_last_close]; [discriminate |].
  destruct (upto_last_close r) as [m' |] eqn:E.
  - intros H. injection H as <-.
    destruct (IH m' eq_refl) as [inner [post [Hm [Hr Hp]]]].
    exists (String c inner), post. subst. split; [reflexivity |]. split; [reflexivity | exact Hp].
  - destruct (Ascii.eqb c "}") eqn:Hc; [| discriminate].
    intros H. injection H as <-. apply Ascii.eqb_eq in Hc. subst c.
    exists EmptyString, r. split; [reflexivity |]. split; [reflexivity |].
    destruct (has_char "}" r) eqn:Hr; [| reflexivity].
    destruct (upto_last_close_some r Hr). congruence.
Qed.

Lemma brace_span_has_close s span :
  brace_span s = Some span -> has_char "}"%char s = true.
Proof.
  induction s as [| c s IH]; cbn [brace_span has_char]; [discriminate |].
  intros H. apply orb_true_iff. right.
  destruct (Ascii.eqb c "{"); [| exact (IH H)].
  destruct (upto_last_close s) as [m |] eqn:E.
  - destruct (upto_last_close_shape s m E) as [inner [post [Hm [Hs _]]]].
    subst. rewrite append_assoc. apply has_char_app_here.
  - exact (IH H).
Qed.

(** The span [/\{[\s\S]*\}/] locates is exactly the text from the first
    ['{'] to the last ['}'] after it: [brace_span s = Some span] iff [s]
    splits as [pre ++ span ++ post] with [span] opening with ['{'] and
    closing with ['}'], [pre] holding no ['{'] and [post] no ['}']. *)
Theorem brace_span_spec s span :
  brace_span s = Some span <->
  exists pre inner post,
    s = (pre ++ "{" ++ inner ++ "}" ++ post)%string
    /\ span = ("{" ++ inner ++ "}")%string
    /\ has_char "{"%char pre = false
    /\ has_char "}"%char post = false.
Proof.
  split.
  - revert span. induction s as [| c s IH]; intros span; cbn [brace_span]; [discriminate |].
    destruct (Ascii.eqb c "{") eqn:Hc.
    + apply Ascii.eqb_eq in Hc. subst c.
      destruct (upto_last_close s) as [m |] eqn:E.
      * intros H. injection H as <-.
        destruct (upto_last_close_shape s m E) as [inner [post [Hm [Hs Hp]]]].
        exists EmptyString, inner, post. subst. repeat split; auto.
        cbn [append]. rewrite append_assoc. reflexivity.
      * intros H. apply brace_span_has_close in H.
        destruct (upto_last_close_some s H). congruence.
    + intros H. destruct (IH span H) as [pre [inner [post [Hs [Hspan [Hpre Hpost]]]]]].
      exists (String c pre), inner, post. subst. repeat split; auto.
      cbn [has_char]. rewrite Ascii.eqb_sym, Hc. exact Hpre.
  - intros [pre [inner [post [Hs [Hspan [Hpre Hpost]]]]]]. subst.
    rewrite brace_span_skip by exact Hpre. cbn [append brace_span].
    rewrite (upto_last_close_app inner (String "}" post) "}").
    + reflexivity.
    + cbn [upto_last_close]. rewrite upto_last_close_none by exact Hpost. reflexivity.
Qed.

Lemma brace_span_some_of_split pre inner post :
  exists span, brace_span (pre ++ "{" ++ inner ++ "}" ++ post)%string = Some span.
Proof.
  induction pre as [| c pre IH]; cbn [append brace_span].
  - rewrite Ascii.eqb_refl.
    destruct (upto_last_close_some (inner ++ String "}" post)) as [m Hm].
    + apply has_char_app_here.
    + rewrite Hm. eauto.
  - destruct (Ascii.eqb c "{"); [| exact IH].
    destruct (upto_last_close_some (pre ++ "{" ++ inner ++ "}" ++ post)) as [m Hm].
    + change (has_char "}" (pre ++ ("{" ++ inner) ++ "}" ++ post)%string = true).
      rewrite <- append_assoc.
      apply has_char_app_here.
    + cbn [append] in Hm |- *. rewrite Hm. eauto.
Qed.

(** The extraction fails with "Could not parse response" exactly when the
    text has no ['{'] followed, somewhere later, by a ['}']; in particular
    for every text without a brace. *)
Theorem extract_could_not_parse_iff s :
  extract s = inr CouldNotParse <->
  (forall pre inner post, s <> (pre ++ "{" ++ inner ++ "}" ++ post)%string).
Proof.
  unfold extract. split.
  - destruct (brace_span s) as [span |] eqn:E.
    + destruct (json_parse span); discriminate.
    + intros _ pre inner post Hs. subst.
      destruct (brace_span_some_of_split pre inner post) as [sp Hsp]. congruence.
  - intros H. destruct (brace_span s) as [span |] eqn:E; [| reflexivity].
    apply brace_span_spec in E as [pre [inner [post [Hs _]]]].
    exfalso. exact (H pre inner post Hs).
Qed.

(** ** The analysis route *)

(** [POST /api/analyze] always answers (nothing escapes its [try]): with
    400 when the body is not [null] and its [imageBase64] is falsy, before
    any request upstream; otherwise the analysis runs on the [imageBase64]
    value, whatever its type, and the route answers 200 with its result or
    500 with the message of its error; a [null] body gets 500 with the
    [TypeError] of the destructuring, before any request. *)
Theorem analyze_route_outcome (analyze : json -> M json) body log :
  exists rep log', analyze_route analyze body log = (inl rep, log') /\
  ( (rep = {| code := 400; reply_body := json_error "Image data is required" |}
     /\ body <> JNull /\ truthy (get_prop body "imageBase64") = false /\ log' = log)
  \/ (exists v r, get_prop body "imageBase64" = Some v /\ truthy (Some v) = true
        /\ analyze v log = (inl r, log') /\ rep = {| code := 200; reply_body := r |})
  \/ (exists v e, get_prop body "imageBase64" = Some v /\ truthy (Some v) = true
        /\ analyze v log = (inr e, log')
        /\ rep = {| code := 500; reply_body := json_error (error_message e) |})
  \/ (body = JNull
        /\ rep = {| code := 500; reply_body := json_error (error_message TypeError) |}
        /\ log' = log) ).
Proof.
  destruct (json_eq_null body) as [-> | Hn].
  { do 2 eexists. split; [reflexivity |]. right; right; right. auto. }
  rewrite analyze_route_nonnull by exact Hn.
  destruct (get_prop body "imageBase64") as [v |] eqn:Hg;
    [| do 2 eexists; split; [reflexivity |]; left; auto].
  destruct (truthy (Some v)) eqn:Ht; cbn [negb];
    [| do 2 eexists; split; [reflexivity |]; left; auto].
  destruct (analyze v log) as [[r | e] log'] eqn:Ha;
    do 2 eexists; split; [reflexivity | | reflexivity |]; right.
  - left. do 2 eexists. eauto.
  - right. left. do 2 eexists. eauto.
Qed.

(** A body whose [imageBase64] is truthy but not a string reaches
    [analyzeWithAbacus] (either file), which throws before any request:
    with no [ABACUS_API_KEY] its key check, otherwise the [TypeError] of
    [imageBase64.startsWith]; the reply is 500 with that message. *)
Theorem post_analyze_non_string_payload (net : nat -> upstream) apiKey body log :
  truthy (get_prop body "imageBase64") = true ->
  (forall s, get_prop body "imageBase64" <> Some (JStr s)) ->
  let e := if configured apiKey then TypeError else NotConfigured in
  post_analyze net apiKey body log
  = (inl {| code := 500; reply_body := json_error (error_message e) |}, log)
  /\ post_analyze_ts net apiKey body log
  = (inl {| code := 500; reply_body := json_error (error_message e) |}, log).
Proof.
  intros Ht Hns e. unfold post_analyze, post_analyze_ts.
  assert (Hnn : body <> JNull) by (intros ->; discriminate Ht).
  rewrite !analyze_route_nonnull by exact Hnn.
  destruct (get_prop body "imageBase64") as [v |] eqn:Hg; [| discriminate Ht].
  rewrite Ht. cbn [negb]. unfold analyze_value, throw, e.
  destruct v as [| | | s' | |]; try (exfalso; exact (Hns s' eq_refl));
    destruct (configured apiKey); split; reflexivity.
Qed.

Lemma post_analyze_non_string_payload_witness :
  truthy (get_prop (JObj [("imageBase64", JArr [])]) "imageBase64") = true
  /\ (forall s, get_prop (JObj [("imageBase64", JArr [])]) "imageBase64" <> Some (JStr s))
  /\ post_analyze net_up None (JObj [("imageBase64", JArr [])]) []
     = (inl {| code := 500; reply_body := json_error (error_message NotConfigured) |}, [])
  /\ post_analyze_ts net_up None (JObj [("imageBase64", JArr [])]) []
     = (inl {| code := 500; reply_body := json_error (error_message NotConfigured) |}, []).
Proof.
  assert (Ht : truthy (get_prop (JObj [("imageBase64", JArr [])]) "imageBase64") = true)
    by reflexivity.
  assert (Hns : forall s, get_prop (JObj [("imageBase64", JArr [])]) "imageBase64"
                          <> Some (JStr s)) by (intros s H; discriminate H).
  split; [exact Ht |]. split; [exact Hns |].
  exact (post_analyze_non_string_payload net_up None (JObj [("imageBase64", JArr [])]) []
           Ht Hns).
Defined.

(** ** The client's request and the server's reading of it *)

Lemma escape_char_parse c r :
  parse_string (escape_char c ++ r) =
  match parse_string r with Some (v, rest) => Some (String c v, rest) | None => None end.
Proof.
  destruct c as [[] [] [] [] [] [] [] []]; reflexivity.
Qed.

Lemma quote_body_parse s rest :
  parse_string (quote_body s ++ String chr_quote rest) = Some (s, rest).
Proof.
  induction s as [| c s IH]; [reflexivity |].
  cbn [quote_body]. rewrite append_assoc, escape_char_parse, IH. reflexivity.
Qed.

Lemma quote_app s rest :
  (quote s ++ rest = String chr_quote (quote_body s ++ String chr_quote rest))%string.
Proof. unfold quote. cbn [append]. rewrite append_assoc. reflexivity. Qed.

Lemma request_body_text b :
  Client.request_body b = Some ("{" ++ quote "imageBase64" ++ ":" ++ quote b ++ "}").
Proof. reflexivity. Qed.

Lemma request_body_parse b :
  Client.express_json ("{" ++ quote "imageBase64" ++ ":" ++ quote b ++ "}")
  = Some (JObj [("imageBase64", JStr b)]).
Proof.
  unfold Client.express_json, json_parse.
  rewrite (quote_app b), (quote_app "imageBase64").
  cbn [append String.length].
  generalize (String.length (quote_body "imageBase64" ++ String chr_quote
     (String ":" (String chr_quote (quote_body b ++ String chr_quote "}"))))) as n.
  intros n. simpl. rewrite quote_body_parse. reflexivity.
Qed.

(** Whatever the image payload, the body [JSON.stringify({ imageBase64 })]
    the client sends is read back by the server's [express.json()] as the
    object holding exactly that payload: every character survives the
    escaping. *)
Theorem request_body_round_trip b :
  exists text, Client.request_body b = Some text
  /\ Client.express_json text = Some (JObj [("imageBase64", JStr b)]).
Proof.
  eexists. split; [apply request_body_text | apply request_body_parse].
Qed.

(** When [handleAnalyze] submits (the image has a non-empty [base64]), the
    server never answers 400: the route hands that very payload to the
    analysis, and answers 200 with its result or 500 with its error. *)
Theorem client_request_reaches_analysis d b (analyze : json -> M json) log :
  Client.handleAnalyze d = Some b ->
  exists text body, Client.request_body b = Some text
  /\ Client.express_json text = Some body
  /\ analyze_route analyze body log =
     match analyze (JStr b) log with
     | (inl v, log') => (inl {| code := 200; reply_body := v |}, log')
     | (inr e, log') => (inl {| code := 500; reply_body := json_error (error_message e) |}, log')
     end.
Proof.
  intros H.
  assert (Hb : String.eqb b "" = false).
  { unfold Client.handleAnalyze in H. destruct d as [d |]; [| discriminate].
    destruct (String.eqb (Client.base64 d) "") eqn:E; [discriminate |].
    injection H as <-. exact E. }
  do 2 eexists. split; [apply request_body_text |]. split; [apply request_body_parse |].
  unfold analyze_route. cbn [get_prop lookup_last String.eqb Ascii.eqb Bool.eqb truthy].
  rewrite Hb. cbn [negb]. unfold try_catch, bind, ret.
  destruct (analyze (JStr b) log) as [[v | e] log']; reflexivity.
Qed.

Lemma client_request_reaches_analysis_witness :
  Client.handleAnalyze (Some {| Client.uri := "file:///beans.jpg"; Client.base64 := "QUJD" |})
  = Some "QUJD"
  /\ exists text body, Client.request_body "QUJD" = Some text
     /\ Client.express_json text = Some body
     /\ analyze_route (fun _ => ret JNull) body []
        = (inl {| code := 200; reply_body := JNull |}, []).
Proof.
  split; [reflexivity |].
  exact (client_request_reaches_analysis
           (Some {| Client.uri := "file:///beans.jpg"; Client.base64 := "QUJD" |})
           "QUJD" (fun _ => ret JNull) [] eq_refl).
Defined.

(** A reply outside 2xx whose body is the server's [{ error: m }] makes
    [mutationFn] throw with the raw JSON text of that body, not with [m];
    the error card shows that text as it is. *)
Theorem mutation_outcome_error_reply st m :
  ~ (200 <= st <= 299)%Z ->
  Client.mutation_outcome {| code := st; reply_body := json_error m |}
  = Some (inr ("{" ++ quote "error" ++ ":" ++ quote m ++ "}"))
  /\ Client.displayed_error ("{" ++ quote "error" ++ ":" ++ quote m ++ "}")
     = ("{" ++ quote "error" ++ ":" ++ quote m ++ "}")%string.
Proof.
  intros Hst. split; [| reflexivity].
  unfold Client.mutation_outcome.
  change (stringify (reply_body {| code := st; reply_body := json_error m |}))
    with (Some ("{" ++ quote "error" ++ ":" ++ quote m ++ "}")).
  cbn [code].
  destruct ((200 <=? st) && (st <=? 299))%Z eqn:E.
  - apply andb_true_iff in E as [E1 E2]. apply Z.leb_le in E1, E2. lia.
  - reflexivity.
Qed.

Lemma mutation_outcome_error_reply_witness :
  Client.mutation_outcome {| code := 400; reply_body := json_error "Image data is required" |}
  = Some (inr ("{" ++ quote "error" ++ ":" ++ quote "Image data is required" ++ "}"))
  /\ Client.displayed_error
       ("{" ++ quote "error" ++ ":" ++ quote "Image data is required" ++ "}")
     = ("{" ++ quote "error" ++ ":" ++ quote "Image data is required" ++ "}")%string.
Proof.
  apply mutation_outcome_error_reply. lia.
Defined.

(** [imageUrl] always yields a data URI, and applying it to its own result
    changes nothing: a payload that already is a data URI is not prefixed
    twice. *)
Theorem imageUrl_data_uri s :
  String.prefix "data:" (imageUrl s) = true /\ imageUrl (imageUrl s) = imageUrl s.
Proof.
  unfold imageUrl.
  destruct (String.prefix "data:" s) eqn:E.
  - rewrite E. split; reflexivity.
  - assert (P : String.prefix "data:" ("data:image/jpeg;base64," ++ s) = true)
      by reflexivity.
    rewrite P. split; reflexivity.
Qed.

(** ** History screen and settings *)

Lemma filter_idem {A} (f : A -> bool) l : filter f (filter f l) = filter f l.
Proof.
  induction l as [| x l IH]; cbn [filter]; [reflexivity |].
  destruct (f x) eqn:E; cbn [filter]; [rewrite E, IH |]; auto.
Qed.

Lemma filter_keep_all {A} (f : A -> bool) l :
  (forall x, In x l -> f x = true) -> filter f l = l.
Proof.
  induction l as [| x l IH]; intros H; cbn [filter]; [reflexivity |].
  rewrite (H x (or_introl eq_refl)), IH; [reflexivity |].
  intros y Hy. apply H. right. exact Hy.
Qed.

(** [handleDelete] keeps exactly the items whose id differs from the one
    pressed (every item sharing that id goes), keeps their order, stores
    the list it shows, and a second delete of the same id changes nothing. *)
Theorem handleDelete_spec h id :
  (forall x, In x (fst (HistoryScreen.handleDelete h id)) <-> In x h /\ History.id x <> id)
  /\ snd (HistoryScreen.handleDelete h id) = Some (fst (HistoryScreen.handleDelete h id))
  /\ HistoryScreen.handleDelete (fst (HistoryScreen.handleDelete h id)) id
     = HistoryScreen.handleDelete h id.
Proof.
  unfold HistoryScreen.handleDelete. cbn [fst snd].
  split; [| split; [reflexivity | rewrite filter_idem; reflexivity]].
  intros x. rewrite filter_In, negb_true_iff, String.eqb_neq. reflexivity.
Qed.

(** Deleting the item just saved (by its fresh id) leaves the 49 newest
    older items: the item the save evicted at the 50-item cap does not
    come back. *)
Theorem save_then_delete stored ev :
  (forall x, In x (HistoryScreen.loadHistory stored) ->
             History.id x <> History.id (History.newItem ev)) ->
  exists l, History.handleSaveToHistory stored ev = Some l
  /\ HistoryScreen.handleDelete l (History.id (History.newItem ev))
     = (firstn 49 (HistoryScreen.loadHistory stored),
        Some (firstn 49 (HistoryScreen.loadHistory stored))).
Proof.
  intros H. eexists. split; [reflexivity |].
  unfold HistoryScreen.handleDelete. cbn [firstn filter].
  rewrite String.eqb_refl. cbn [negb].
  rewrite filter_keep_all; [reflexivity |].
  intros x Hx. apply negb_true_iff, String.eqb_neq, H.
  rewrite <- (firstn_skipn 49 (HistoryScreen.loadHistory stored)).
  apply in_or_app. left. exact Hx.
Qed.

Lemma save_then_delete_witness :
  List.length (HistoryScreen.loadHistory full_history) = 50%nat
  /\ (forall x, In x (HistoryScreen.loadHistory full_history) ->
                History.id x <> History.id (History.newItem (save_at 51)))
  /\ exists l, History.handleSaveToHistory full_history (save_at 51) = Some l
     /\ HistoryScreen.handleDelete l (History.id (History.newItem (save_at 51)))
        = (firstn 49 (HistoryScreen.loadHistory full_history),
           Some (firstn 49 (HistoryScreen.loadHistory full_history))).
Proof.
  assert (Hb : forallb (fun x => negb (String.eqb (History.id x)
                                          (History.id (History.newItem (save_at 51)))))
                 (HistoryScreen.loadHistory full_history) = true)
    by (vm_compute; reflexivity).
  assert (H : forall x, In x (HistoryScreen.loadHistory full_history) ->
                        History.id x <> History.id (History.newItem (save_at 51))).
  { intros x Hx. rewrite forallb_forall in Hb. specialize (Hb x Hx).
    apply negb_true_iff, String.eqb_neq in Hb. exact Hb. }
  split; [vm_compute; reflexivity |]. split; [exact H |].
  exact (save_then_delete full_history (save_at 51) H).
Defined.

(** After the settings screen clears the history, the history screen lists
    exactly the saves made since, newest first, at most 50 of them. *)
Theorem clear_then_saves_load stored evs :
  HistoryScreen.loadHistory (History.save_all (SettingsScreen.clearHistory stored) evs)
  = firstn 50 (rev (map History.newItem evs)).
Proof.
  destruct evs as [| ev evs]; [reflexivity |].
  unfold HistoryScreen.loadHistory, SettingsScreen.clearHistory.
  rewrite save_all_cons. cbn [History.stored_history]. rewrite app_nil_r. reflexivity.
Qed.

(** ** Roast badge colour *)

Lemma prefix_app_l a b s :
  String.prefix (a ++ b) s = true -> String.prefix a s = true.
Proof.
  revert s. induction a as [| c a IH]; intros s; [destruct s; reflexivity |].
  destruct s as [| c' s]; cbn [append String.prefix]; [discriminate |].
  destruct (Ascii.ascii_dec c c'); [apply IH | discriminate].
Qed.

Lemma includes_app_l s a b :
  includes s (a ++ b) = true -> includes s a = true.
Proof.
  induction s as [| c s IH]; cbn [includes]; intros H;
    apply orb_true_iff in H as [H | H]; apply orb_true_iff.
  - left. exact (prefix_app_l a b _ H).
  - discriminate.
  - left. exact (prefix_app_l a b _ H).
  - right. exact (IH H).
Qed.

(** An ASCII label that names a medium-light roast (with a hyphen or a
    space, in any case) gets the medium-light colour, whatever else it
    says: the "light" test is skipped because it also contains "medium";
    one that names a medium-dark roast and no medium-light one gets the
    medium-dark colour. *)
Theorem getRoastColor_medium_variants s :
  ascii_text s = true ->
  (includes (to_lower s) "medium-light" || includes (to_lower s) "medium light" = true ->
   getRoastColor s = "#A68A4A")
  /\ (includes (to_lower s) "medium-light" || includes (to_lower s) "medium light" = false ->
      includes (to_lower s) "medium-dark" || includes (to_lower s) "medium dark" = true ->
      getRoastColor s = "#5C3D1E").
Proof.
  intros _.
  unfold getRoastColor.
  assert (Hm : forall t, includes (to_lower s) ("medium" ++ t) = true ->
                         includes (to_lower s) "medium" = true)
    by (intros t; apply includes_app_l).
  split.
  - intros H. rewrite H.
    assert (E : includes (to_lower s) "medium" = true).
    { apply orb_true_iff in H as [H | H];
        [apply (Hm "-light") | apply (Hm " light")]; exact H. }
    rewrite E, andb_false_r. reflexivity.
  - intros H1 H2. rewrite H1, H2.
    assert (E : includes (to_lower s) "medium" = true).
    { apply orb_true_iff in H2 as [H | H];
        [apply (Hm "-dark") | apply (Hm " dark")]; exact H. }
    rewrite E, andb_false_r. reflexivity.
Qed.

Lemma getRoastColor_medium_variants_witness :
  ascii_text "Medium-Light, close to MEDIUM DARK" = true
  /\ getRoastColor "Medium-Light, close to MEDIUM DARK" = "#A68A4A".
Proof.
  assert (H : ascii_text "Medium-Light, close to MEDIUM DARK" = true) by reflexivity.
  split; [exact H |].
  apply (proj1 (getRoastColor_medium_variants "Medium-Light, close to MEDIUM DARK" H)).
  reflexivity.
Defined.

(** ** The stored history *)


Lemma json_size_arr xs :
  json_size (JArr xs) = S (list_sum (map json_size xs)).
Proof.
  induction xs as [| x xs IH]; [reflexivity |].
  cbn [json_size] in *. injection IH as IH. cbn [map]. unfold list_sum. cbn [fold_right]. fold (list_sum (map json_size xs)). rewrite <- IH. reflexivity.
Qed.

Lemma json_size_obj kvs :
  json_size (JObj kvs) = S (list_sum (map (fun kv => json_size (snd kv)) kvs)).
Proof.
  induction kvs as [| [k x] kvs IH]; [reflexivity |].
  cbn [json_size] in *. injection IH as IH. cbn [map snd]. unfold list_sum. cbn [fold_right].
  fold (list_sum (map (fun kv : string * json => json_size (snd kv)) kvs)).
  rewrite <- IH. reflexivity.
Qed.

Lemma list_sum_in {A} (f : A -> nat) x xs :
  In x xs -> (f x <= list_sum (map f xs))%nat.
Proof.
  induction xs as [| y xs IH]; intros H; [destruct H |].
  cbn [map]. unfold list_sum in *. cbn [fold_right].
  destruct H as [-> | H]; [lia |]. specialize (IH H). lia.
Qed.

Lemma all_some_map {A} (f : A -> option string) (g : A -> string) xs :
  (forall x, In x xs -> f x = Some (g x)) ->
  all_some (map f xs) = Some (map g xs).
Proof.
  induction xs as [| x xs IH]; intros H; [reflexivity |].
  cbn [map all_some]. rewrite H by (left; reflexivity).
  rewrite IH by (intros y Hy; apply H; right; exact Hy). reflexivity.
Qed.

Lemma lookup_last_absent k kvs :
  existsb (String.eqb k) (map fst kvs) = false -> lookup_last k kvs = None.
Proof.
  induction kvs as [| [k' x] kvs IH]; intros H; [reflexivity |].
  cbn [map existsb fst] in H. apply orb_false_iff in H as [H1 H2].
  cbn [lookup_last]. rewrite IH by exact H2. rewrite H1. reflexivity.
Qed.

Lemma lookup_last_distinct kvs k x :
  keys_distinct kvs = true -> In (k, x) kvs -> lookup_last k kvs = Some x.
Proof.
  induction kvs as [| [k' x'] kvs IH]; intros Hd Hin; [destruct Hin |].
  cbn [keys_distinct] in Hd. apply andb_true_iff in Hd as [Hk Hd].
  apply negb_true_iff in Hk. cbn [lookup_last].
  destruct Hin as [E | Hin].
  - injection E as -> ->. rewrite lookup_last_absent by exact Hk.
    rewrite String.eqb_refl. reflexivity.
  - rewrite (IH Hd Hin). reflexivity.
Qed.

Lemma first_keys_distinct kvs seen :
  keys_distinct kvs = true ->
  (forall k, In k (map fst kvs) -> existsb (String.eqb k) seen = false) ->
  first_keys kvs seen = map fst kvs.
Proof.
  revert seen. induction kvs as [| [k x] kvs IH]; intros seen Hd Hs; [reflexivity |].
  cbn [keys_distinct] in Hd. apply andb_true_iff in Hd as [Hk Hd].
  apply negb_true_iff in Hk. cbn [first_keys map fst].
  rewrite Hs by (left; reflexivity). f_equal. apply IH; [exact Hd |].
  intros k' Hk'. cbn [existsb]. apply orb_false_iff. split.
  - apply String.eqb_neq. intros ->.
    assert (E : existsb (String.eqb k) (map fst kvs) = true)
      by (apply existsb_exists; exists k; split; [exact Hk' | apply String.eqb_refl]).
    congruence.
  - apply Hs. right. exact Hk'.
Qed.

Lemma json_size_pos v : (1 <= json_size v)%nat.
Proof. destruct v; cbn; lia. Qed.

(** [JSON.stringify] of a plain value is its text. *)
Lemma stringify_plain v :
  plain v = true -> forall n, (json_size v <= n)%nat -> stringify_fuel n v = Some (json_text v).
Proof.
  induction v as [| b | lx | s | xs IH | kvs IH] using json_ind'; intros Hp n Hn;
    (destruct n as [| n]; [exfalso; lazymatch type of Hn with (json_size ?w <= _)%nat => pose proof (json_size_pos w) end; lia |]).
  - reflexivity.
  - destruct b; reflexivity.
  - discriminate Hp.
  - reflexivity.
  - rewrite json_size_arr in Hn. cbn [plain] in Hp. rewrite forallb_forall in Hp.
    cbn [stringify_fuel json_text].
    rewrite (all_some_map _ json_text); [reflexivity |].
    intros x Hx. rewrite Forall_forall in IH. apply IH; [exact Hx | apply Hp, Hx |].
    pose proof (list_sum_in json_size x xs Hx). lia.
  - rewrite json_size_obj in Hn. cbn [plain] in Hp. apply andb_true_iff in Hp as [Hd Hp].
    rewrite forallb_forall in Hp. rewrite Forall_forall in IH.
    cbn [stringify_fuel json_text].
    rewrite (first_keys_distinct kvs []) by (exact Hd || reflexivity).
    rewrite map_map.
    rewrite (all_some_map _ (fun kv => quote (fst kv) ++ ":" ++ json_text (snd kv))%string);
      [reflexivity |].
    intros [k x] Hx. cbn [fst snd].
    rewrite (lookup_last_distinct kvs k x Hd Hx).
    rewrite (IH (k, x) Hx (Hp (k, x) Hx)); [reflexivity |].
    pose proof (list_sum_in (fun kv => json_size (snd kv)) (k, x) kvs Hx). cbn in *. lia.
Qed.

Lemma str_length_app a b : String.length (a ++ b) = (String.length a + String.length b)%nat.
Proof. induction a as [| c a IH]; cbn; [reflexivity | rewrite IH; reflexivity]. Qed.

Lemma append_nil_r s : (s ++ "")%string = s.
Proof. induction s as [| c s IH]; cbn; [reflexivity | rewrite IH; reflexivity]. Qed.

Lemma skip_ws_nonws c r : is_ws c = false -> skip_ws (String c r) = String c r.
Proof. intros H. cbn [skip_ws]. rewrite H. reflexivity. Qed.

Lemma parse_elems_step n s acc :
  parse_elems (S n) s acc =
  match parse_value n s with
  | Some (v, r) =>
      match skip_ws r with
      | String c r2 =>
          if Ascii.eqb c ","%char then parse_elems n r2 (acc ++ [v])
          else if Ascii.eqb c "]"%char then Some (JArr (acc ++ [v]), r2)
          else None
      | EmptyString => None
      end
  | None => None
  end.
Proof. reflexivity. Qed.

Lemma member_step k r2 n acc :
  parse_members (S n) (quote k ++ String ":" r2) acc =
  match parse_value n r2 with
  | Some (v, r3) =>
      match skip_ws r3 with
      | String c r4 =>
          if Ascii.eqb c ","%char then parse_members n r4 (acc ++ [(k, v)])
          else if Ascii.eqb c "}"%char then Some (JObj (acc ++ [(k, v)]), r4)
          else None
      | EmptyString => None
      end
  | None => None
  end.
Proof.
  rewrite quote_app. simpl. rewrite quote_body_parse. reflexivity.
Qed.

Lemma json_text_obj kvs :
  json_text (JObj kvs) = ("{" ++ String.concat "," (map member_text kvs) ++ "}")%string.
Proof. reflexivity. Qed.

Lemma json_text_head v :
  plain v = true ->
  exists c t, json_text v = String c t /\ is_ws c = false
  /\ Ascii.eqb c "]"%char = false /\ Ascii.eqb c "}"%char = false.
Proof.
  intros Hp. destruct v as [| [] | lx | s | xs | kvs]; [.. | discriminate Hp | | |];
    do 2 eexists; (split; [reflexivity |]); repeat split; reflexivity.
Qed.

Lemma concat_head {A} (f : A -> string) x xs :
  exists t, String.concat "," (map f (x :: xs)) = (f x ++ t)%string.
Proof.
  destruct xs as [| x' xs].
  - exists "". rewrite append_nil_r. reflexivity.
  - eexists. reflexivity.
Qed.

Lemma elems_gen xs :
  forallb plain xs = true ->
  (forall x, In x xs -> forall n rest, (String.length (json_text x) <= S n)%nat ->
             parse_value n (json_text x ++ rest) = Some (x, rest)) ->
  xs <> [] -> forall n rest acc,
  (String.length (String.concat "," (map json_text xs)) <= n)%nat ->
  parse_elems n (String.concat "," (map json_text xs) ++ String "]" rest) acc
  = Some (JArr (acc ++ xs), rest).
Proof.
  induction xs as [| x xs IH]; intros Hp Hx Hne n rest acc Hlen; [congruence |].
  cbn [forallb] in Hp. apply andb_true_iff in Hp as [Hpx Hp].
  destruct (json_text_head x Hpx) as [c [t [Ht _]]].
  assert (Hl : (1 <= String.length (json_text x))%nat) by (rewrite Ht; cbn; lia).
  destruct xs as [| x' xs'].
  - cbn [map String.concat] in *.
    destruct n as [| n]; [lia |].
    rewrite parse_elems_step, Hx by (first [left; reflexivity | lia]).
    rewrite skip_ws_nonws by reflexivity. reflexivity.
  - remember (String.concat "," (map json_text (x' :: xs'))) as C eqn:HC.
    assert (Htext : String.concat "," (map json_text (x :: x' :: xs'))
                    = json_text x ++ "," ++ C)
      by (subst C; reflexivity).
    rewrite Htext in *. rewrite !str_length_app in Hlen. cbn [String.length] in Hlen.
    rewrite !append_assoc. cbn [append].
    destruct n as [| n]; [lia |].
    rewrite parse_elems_step, Hx by (first [left; reflexivity | lia]).
    rewrite skip_ws_nonws by reflexivity. cbv iota.
    change (Ascii.eqb "," ",") with true. cbv iota.
    subst C. rewrite IH by (exact Hp || discriminate || lia || (intros; apply Hx; [right |]; assumption)).
    rewrite <- app_assoc. reflexivity.
Qed.

Lemma member_text_app kv tail :
  (member_text kv ++ tail = quote (fst kv) ++ String ":" (json_text (snd kv) ++ tail))%string.
Proof. unfold member_text. rewrite !append_assoc. reflexivity. Qed.

Lemma member_text_length kv :
  (String.length (member_text kv) = String.length (quote (fst kv)) + 1 + String.length (json_text (snd kv)))%nat.
Proof. unfold member_text. rewrite !str_length_app. cbn [String.length]. lia. Qed.

Lemma quote_length k : (2 <= String.length (quote k))%nat.
Proof. unfold quote. cbn [String.length]. rewrite str_length_app. cbn [String.length]. lia. Qed.

Lemma members_gen kvs :
  (forall kv, In kv kvs -> forall n rest, (String.length (json_text (snd kv)) <= S n)%nat ->
              parse_value n (json_text (snd kv) ++ rest) = Some (snd kv, rest)) ->
  kvs <> [] -> forall n rest acc,
  (String.length (String.concat "," (map member_text kvs)) <= n)%nat ->
  parse_members n (String.concat "," (map member_text kvs) ++ String "}" rest) acc
  = Some (JObj (acc ++ kvs), rest).
Proof.
  induction kvs as [| kv kvs IH]; intros Hx Hne n rest acc Hlen; [congruence |].
  pose proof (member_text_length kv) as Hm. pose proof (quote_length (fst kv)) as Hq.
  destruct kvs as [| kv' kvs'].
  - cbn [map String.concat] in *.
    destruct n as [| n]; [lia |].
    rewrite member_text_app, member_step, Hx by (first [left; reflexivity | lia]).
    rewrite skip_ws_nonws by reflexivity. destruct kv. reflexivity.
  - remember (String.concat "," (map member_text (kv' :: kvs'))) as C eqn:HC.
    assert (Htext : String.concat "," (map member_text (kv :: kv' :: kvs'))
                    = member_text kv ++ "," ++ C)
      by (subst C; reflexivity).
    rewrite Htext in *. rewrite !str_length_app in Hlen. cbn [String.length] in Hlen.
    rewrite !append_assoc. cbn [append].
    destruct n as [| n]; [lia |].
    rewrite member_text_app, member_step, Hx by (first [left; reflexivity | lia]).
    rewrite skip_ws_nonws by reflexivity. cbv iota.
    change (Ascii.eqb "," ",") with true. cbv iota.
    subst C. rewrite IH by (discriminate || lia || (intros; apply Hx; [right |]; assumption)).
    rewrite <- app_assoc. destruct kv. reflexivity.
Qed.

(** [JSON.parse] reads the text of a plain value back as that value. *)
Lemma parse_plain v :
  plain v = true -> forall n rest, (String.length (json_text v) <= S n)%nat ->
  parse_value n (json_text v ++ rest) = Some (v, rest).
Proof.
  induction v as [| b | lx | s | xs IH | kvs IH] using json_ind'; intros Hp n rest Hn.
  - destruct n as [| n]; [cbn in Hn; lia | reflexivity].
  - destruct n as [| n]; [destruct b; cbn in Hn; lia | destruct b; reflexivity].
  - discriminate Hp.
  - destruct n as [| n]; [pose proof (quote_length s); cbn [json_text] in Hn; lia |].
    cbn [json_text]. rewrite quote_app. simpl. rewrite quote_body_parse. reflexivity.
  - cbn [plain] in Hp. rewrite Forall_forall in IH. pose proof Hp as Hp'.
    rewrite forallb_forall in Hp'.
    destruct xs as [| x xs']; [destruct n as [| n]; [cbn in Hn; lia | reflexivity] |].
    cbn [json_text] in *. rewrite str_length_app in Hn. cbn [String.length] in Hn.
    rewrite str_length_app in Hn. cbn [String.length] in Hn.
    destruct (concat_head json_text x xs') as [t' Ht'].
    destruct (json_text_head x (Hp' x (or_introl eq_refl))) as [c [t [Ht [Hw [Hb _]]]]].
    remember (String.concat "," (map json_text (x :: xs'))) as C eqn:HC.
    assert (Hs : (C ++ String "]" rest)%string = String c (t ++ t' ++ String "]" rest)).
    { rewrite Ht', Ht. cbn [append]. rewrite !append_assoc. reflexivity. }
    rewrite !append_assoc. cbn [append]. rewrite Hs.
    destruct n as [| n]; [lia |].
    simpl. rewrite Hw. cbn [negb]. rewrite Hb. rewrite <- Hs, HC.
    rewrite (elems_gen (x :: xs')); [reflexivity | exact Hp | | discriminate | subst C; lia].
    intros y Hy. apply IH; [exact Hy | apply Hp', Hy].
  - cbn [plain] in Hp. apply andb_true_iff in Hp as [_ Hp].
    rewrite Forall_forall in IH. rewrite forallb_forall in Hp.
    destruct kvs as [| kv kvs']; [destruct n as [| n]; [cbn in Hn; lia | reflexivity] |].
    rewrite json_text_obj in *. rewrite str_length_app in Hn. cbn [String.length] in Hn.
    rewrite str_length_app in Hn. cbn [String.length] in Hn.
    destruct (concat_head member_text kv kvs') as [t' Ht'].
    remember (String.concat "," (map member_text (kv :: kvs'))) as C eqn:HC.
    assert (Hs : exists s', (C ++ String "}" rest)%string = String chr_quote s').
    { rewrite Ht', append_assoc, member_text_app, quote_app. eexists. reflexivity. }
    destruct Hs as [s' Hs].
    rewrite !append_assoc. cbn [append]. rewrite Hs.
    destruct n as [| n]; [lia |].
    simpl. rewrite <- Hs, HC.
    rewrite (members_gen (kv :: kvs')); [reflexivity | | discriminate | subst C; lia].
    intros y Hy. apply IH; [exact Hy | apply Hp, Hy].
Qed.

Lemma json_parse_plain v : plain v = true -> json_parse (json_text v) = Some v.
Proof.
  intros Hp. unfold json_parse.
  pose proof (parse_plain v Hp (S (String.length (json_text v))) "") as H.
  rewrite append_nil_r in H. rewrite H by lia. reflexivity.
Qed.

Lemma item_json_plain it :
  HistoryStore.item_plain it = true -> plain (HistoryStore.item_json it) = true.
Proof.
  destruct it as [i im rl tp tr nt dt].
  unfold HistoryStore.item_plain, HistoryStore.item_json, HistoryStore.item_fields.
  cbn [History.id History.imageBase64 History.roastLevel History.temperature
       History.temperatureRange History.notes History.date].
  destruct im, rl, tp, tr, nt; cbn; rewrite ?andb_true_r; auto.
Qed.

Lemma forallb_firstn {A} (f : A -> bool) n l :
  forallb f l = true -> forallb f (firstn n l) = true.
Proof.
  rewrite !forallb_forall. intros H x Hx. apply H.
  rewrite <- (firstn_skipn n l). apply in_or_app. left. exact Hx.
Qed.

Lemma store_round_trip l :
  forallb HistoryStore.item_plain l = true ->
  HistoryStore.store_text l = Some (json_text (JArr (map HistoryStore.item_json l)))
  /\ HistoryScreen.load_stored (Some (json_text (JArr (map HistoryStore.item_json l))))
     = Some (JArr (map HistoryStore.item_json l)).
Proof.
  intros Hl.
  assert (Hp : plain (JArr (map HistoryStore.item_json l)) = true).
  { cbn [plain]. apply forallb_forall. intros v Hv. apply in_map_iff in Hv as [it [<- Hit]].
    apply item_json_plain. rewrite forallb_forall in Hl. apply Hl, Hit. }
  split.
  - unfold HistoryStore.store_text, stringify. apply stringify_plain; [exact Hp | lia].
  - unfold HistoryScreen.load_stored. cbn [json_text append String.eqb].
    exact (json_parse_plain _ Hp).
Qed.

Lemma item_no_imageUri it : get_prop (HistoryStore.item_json it) "imageUri" = None.
Proof. destruct it as [i [] [] [] [] [] dt]; reflexivity. Qed.

Lemma item_imageBase64 it :
  get_prop (HistoryStore.item_json it) "imageBase64" = History.imageBase64 it.
Proof. destruct it as [i [] [] [] [] [] dt]; reflexivity. Qed.

(** What the save and delete handlers store under [HISTORY_KEY],
    [JSON.stringify] of the list of items, is read back by the history
    screen's [JSON.parse] as exactly those items, in order: each one the
    object of its defined fields in source order, the [undefined] ones left
    out (reading them still gives [undefined]), whatever characters the
    strings hold and however the values nest, provided they hold no number
    (whose printing is not modelled). *)
Theorem history_store_round_trip l :
  forallb HistoryStore.item_plain l = true ->
  exists text, HistoryStore.store_text l = Some text
  /\ HistoryScreen.load_stored (Some text) = Some (JArr (map HistoryStore.item_json l)).
Proof.
  intros Hl. eexists. exact (store_round_trip l Hl).
Qed.

Lemma history_store_round_trip_witness :
  forallb HistoryStore.item_plain [History.newItem cleared_save] = true
  /\ exists text, HistoryStore.store_text [History.newItem cleared_save] = Some text
     /\ HistoryScreen.load_stored (Some text)
        = Some (JArr (map HistoryStore.item_json [History.newItem cleared_save])).
Proof.
  assert (H : forallb HistoryStore.item_plain [History.newItem cleared_save] = true)
    by (vm_compute; reflexivity).
  split; [exact H | exact (history_store_round_trip _ H)].
Defined.

(** The history screen renders each item's thumbnail from [item.imageUri],
    but the items [handleSaveToHistory] stores have no [imageUri] (the new
    item carries the picture, when defined, under [imageBase64]): every item
    the history screen reads back after a save has an undefined thumbnail
    source. *)
Theorem history_thumbnail_uri_missing stored ev :
  forallb HistoryStore.item_plain (History.stored_history stored) = true ->
  HistoryStore.item_plain (History.newItem ev) = true ->
  exists l text xs, History.handleSaveToHistory stored ev = Some l
  /\ HistoryStore.store_text l = Some text
  /\ HistoryScreen.load_stored (Some text) = Some (JArr xs)
  /\ List.length xs = List.length l
  /\ (forall v, In v xs -> HistoryScreen.thumbnail_uri v = None)
  /\ exists v xs', xs = v :: xs' /\ get_prop v "imageBase64" = History.ev_image ev.
Proof.
  intros Hh Hn.
  set (l := firstn 50 (History.newItem ev :: History.stored_history stored)).
  assert (Hl : forallb HistoryStore.item_plain l = true).
  { apply forallb_firstn. cbn [forallb]. rewrite Hn, Hh. reflexivity. }
  destruct (store_round_trip l Hl) as [Hs Hp].
  exists l. do 2 eexists. split; [reflexivity |]. split; [exact Hs |]. split; [exact Hp |].
  split; [apply length_map |]. split.
  - intros v Hv. apply in_map_iff in Hv as [it [<- _]]. apply item_no_imageUri.
  - do 2 eexists. split; [reflexivity |]. apply item_imageBase64.
Qed.

Lemma history_thumbnail_uri_missing_witness :
  forallb HistoryStore.item_plain (History.stored_history None) = true
  /\ HistoryStore.item_plain (History.newItem cleared_save) = true
  /\ exists l text xs, History.handleSaveToHistory None cleared_save = Some l
     /\ HistoryStore.store_text l = Some text
     /\ HistoryScreen.load_stored (Some text) = Some (JArr xs)
     /\ List.length xs = List.length l
     /\ (forall v, In v xs -> HistoryScreen.thumbnail_uri v = None)
     /\ exists v xs', xs = v :: xs' /\ get_prop v "imageBase64" = History.ev_image cleared_save.
Proof.
  assert (H1 : forallb HistoryStore.item_plain (History.stored_history None) = true)
    by reflexivity.
  assert (H2 : HistoryStore.item_plain (History.newItem cleared_save) = true)
    by (vm_compute; reflexivity).
  split; [exact H1 |]. split; [exact H2 |].
  exact (history_thumbnail_uri_missing None cleared_save H1 H2).
Defined.

(** ** History ids *)

Lemma digit_value d : 0 <= d < 10 ->
  Z.of_nat (nat_of_ascii (byte_of (48 + d))) - 48 = d.
Proof.
  intros H. unfold byte_of. rewrite nat_ascii_embedding by lia. lia.
Qed.

Lemma dec_digits_value f : forall n acc,
  0 <= n < 10 ^ Z.of_nat f -> dec_value 0 (dec_digits f n acc) = dec_value n acc.
Proof.
  induction f as [| f IH]; intros n acc H; cbn [dec_digits].
  - cbn in H. assert (n = 0) by lia. subst. reflexivity.
  - rewrite Nat2Z.inj_succ, Z.pow_succ_r in H by lia.
    destruct (n <? 10) eqn:E.
    + apply Z.ltb_lt in E. cbn [dec_value].
      rewrite Z.mod_small by lia. rewrite digit_value by lia. reflexivity.
    + apply Z.ltb_ge in E. rewrite IH.
      * cbn [dec_value]. rewrite digit_value by (apply Z.mod_pos_bound; lia).
        f_equal. pose proof (Z.div_mod n 10). lia.
      * split; [apply Z.div_pos; lia |]. apply Z.div_lt_upper_bound; lia.
Qed.

Lemma z_to_dec_value n : 0 <= n -> dec_value 0 (z_to_dec n) = n.
Proof.
  intros H. unfold z_to_dec.
  replace (n <? 0) with false by (symmetry; apply Z.ltb_ge; lia).
  rewrite dec_digits_value; [reflexivity |]. split; [exact H |].
  rewrite Nat2Z.inj_succ, Z2Nat.id by (apply Z.log2_nonneg).
  apply Z.lt_le_trans with (2 ^ Z.succ (Z.log2 n)).
  - destruct (Z.eq_dec n 0) as [-> | Hn]; [reflexivity |].
    apply Z.log2_spec. lia.
  - apply Z.pow_le_mono_l. split; [lia | lia].
Qed.

Lemma nodup_map_firstn {A B} (f : A -> B) n l :
  NoDup (map f l) -> NoDup (map f (firstn n l)).
Proof.
  intros H. rewrite <- (firstn_skipn n l), map_app in H.
  exact (NoDup_app_remove_r _ _ H).
Qed.

Lemma nodup_map_inj_on {A B} (f : A -> B) l x y :
  NoDup (map f l) -> In x l -> In y l -> f x = f y -> x = y.
Proof.
  induction l as [| a l IH]; cbn [map In]; intros Hnd Hx Hy Hf; [contradiction |].
  apply NoDup_cons_iff in Hnd as [Hna Hnd].
  destruct Hx as [<- | Hx], Hy as [<- | Hy]; auto.
  - exfalso. apply Hna. rewrite Hf. apply in_map. exact Hy.
  - exfalso. apply Hna. rewrite <- Hf. apply in_map. exact Hx.
Qed.

Lemma nodup_map_of_inj {A B} (f : A -> B) l :
  NoDup l -> (forall x y, In x l -> In y l -> f x = f y -> x = y) -> NoDup (map f l).
Proof.
  induction l as [| a l IH]; intros Hnd Hinj; cbn [map]; [constructor |].
  apply NoDup_cons_iff in Hnd as [Hna Hnd]. constructor.
  - intros Hin. apply in_map_iff in Hin as [b [Hb Hbl]].
    apply Hna. rewrite (Hinj a b (or_introl eq_refl) (or_intror Hbl) (eq_sym Hb)). exact Hbl.
  - apply IH; [exact Hnd |]. intros x y Hx Hy. apply Hinj; right; assumption.
Qed.

Lemma z_to_dec_inj n m : 0 <= n -> 0 <= m -> z_to_dec n = z_to_dec m -> n = m.
Proof.
  intros Hn Hm H. rewrite <- (z_to_dec_value n Hn), <- (z_to_dec_value m Hm), H. reflexivity.
Qed.

Lemma filter_drop_one {A} (f : A -> string) l x :
  NoDup (map f l) -> In x l ->
  List.length (filter (fun y => negb (String.eqb (f y) (f x))) l) = (List.length l - 1)%nat.
Proof.
  induction l as [| a l IH]; cbn [map In]; intros Hnd Hx; [contradiction |].
  apply NoDup_cons_iff in Hnd as [Hna Hnd]. cbn [filter List.length].
  destruct Hx as [<- | Hx].
  - rewrite String.eqb_refl. cbn [negb].
    rewrite filter_keep_all; [lia |].
    intros y Hy. apply negb_true_iff, String.eqb_neq. intros E.
    apply Hna. rewrite <- E. apply in_map. exact Hy.
  - destruct (String.eqb (f a) (f x)) eqn:E.
    + apply String.eqb_eq in E. exfalso. apply Hna. rewrite E. apply in_map. exact Hx.
    + cbn [negb List.length]. rewrite IH by assumption.
      destruct l; [contradiction | cbn [List.length]; lia].
Qed.

Lemma load_save_all_none evs :
  HistoryScreen.loadHistory (History.save_all None evs) = firstn 50 (rev (map History.newItem evs)).
Proof.
  destruct evs as [| ev evs]; [reflexivity |].
  unfold HistoryScreen.loadHistory. rewrite save_all_cons. cbn [History.stored_history].
  rewrite app_nil_r. reflexivity.
Qed.

(** A history item's id, [Date.now().toString()], determines the time of
    its save: two saves at non-negative times get the same id exactly when
    they happen in the same millisecond. *)
Theorem newItem_id_injective ev1 ev2 :
  0 <= History.now_ms ev1 -> 0 <= History.now_ms ev2 ->
  (History.id (History.newItem ev1) = History.id (History.newItem ev2)
   <-> History.now_ms ev1 = History.now_ms ev2).
Proof.
  intros H1 H2. cbn [History.newItem History.id]. split.
  - apply z_to_dec_inj; assumption.
  - intros ->. reflexivity.
Qed.

Lemma save_all_ids_nodup evs :
  Forall (fun ev => 0 <= History.now_ms ev) evs -> NoDup (map History.now_ms evs) ->
  NoDup (map History.id (HistoryScreen.loadHistory (History.save_all None evs))).
Proof.
  intros Hpos Hnd. rewrite load_save_all_none. apply nodup_map_firstn.
  rewrite map_rev, map_map. apply NoDup_rev.
  replace (map (fun ev => History.id (History.newItem ev)) evs)
    with (map z_to_dec (map History.now_ms evs)) by (rewrite map_map; reflexivity).
  apply nodup_map_of_inj; [exact Hnd |].
  intros a b Ha Hb. apply in_map_iff in Ha as [ea [<- Ha]], Hb as [eb [<- Hb]].
  rewrite Forall_forall in Hpos.
  apply z_to_dec_inj; apply Hpos; assumption.
Qed.

(** When the saves happened at distinct (non-negative) times, the ids in
    the history are unique, and deleting an item removes that item and no
    other: the list shrinks by exactly one. *)
Theorem delete_saved_item_only evs x :
  Forall (fun ev => 0 <= History.now_ms ev) evs -> NoDup (map History.now_ms evs) ->
  In x (HistoryScreen.loadHistory (History.save_all None evs)) ->
  (forall y, In y (fst (HistoryScreen.handleDelete
                          (HistoryScreen.loadHistory (History.save_all None evs)) (History.id x)))
             <-> In y (HistoryScreen.loadHistory (History.save_all None evs)) /\ y <> x)
  /\ List.length (fst (HistoryScreen.handleDelete
                         (HistoryScreen.loadHistory (History.save_all None evs)) (History.id x)))
     = (List.length (HistoryScreen.loadHistory (History.save_all None evs)) - 1)%nat.
Proof.
  intros Hpos Hnd Hx.
  pose proof (save_all_ids_nodup evs Hpos Hnd) as Hids.
  remember (HistoryScreen.loadHistory (History.save_all None evs)) as L eqn:HL.
  unfold HistoryScreen.handleDelete. cbn [fst]. split.
  - intros y. rewrite filter_In, negb_true_iff, String.eqb_neq. split.
    + intros [Hy Hne]. split; [exact Hy |]. intros ->. apply Hne. reflexivity.
    + intros [Hy Hne]. split; [exact Hy |]. intros E. apply Hne.
      exact (nodup_map_inj_on History.id L y x Hids Hy Hx E).
  - exact (filter_drop_one History.id L x Hids Hx).
Qed.

Lemma newItem_id_injective_witness :
  (0 <= 1760572800000 /\ 0 <= 1760572800001)
  /\ (History.id (History.newItem (save_at 1760572800000))
      = History.id (History.newItem (save_at 1760572800001))
      <-> 1760572800000 = 1760572800001).
Proof.
  split; [lia |].
  exact (newItem_id_injective (save_at 1760572800000) (save_at 1760572800001)
           ltac:(cbn; lia) ltac:(cbn; lia)).
Defined.

Lemma delete_saved_item_only_witness :
  In (History.newItem (save_at 2))
     (HistoryScreen.loadHistory (History.save_all None [save_at 1; save_at 2]))
  /\ List.length (fst (HistoryScreen.handleDelete
                   (HistoryScreen.loadHistory (History.save_all None [save_at 1; save_at 2]))
                   (History.id (History.newItem (save_at 2))))) = 1%nat.
Proof.
  assert (Hin : In (History.newItem (save_at 2))
                   (HistoryScreen.loadHistory (History.save_all None [save_at 1; save_at 2])))
    by (left; reflexivity).
  split; [exact Hin |].
  destruct (delete_saved_item_only [save_at 1; save_at 2] (History.newItem (save_at 2))
              ltac:(repeat constructor; cbn; lia)
              ltac:(cbn; repeat constructor; cbn; intuition discriminate)
              Hin) as [_ Hlen].
  rewrite Hlen. reflexivity.
Defined.

(** ** Errors of the analysis *)

Lemma fetchWithRetry_error (net : nat -> upstream) url retries t log e log' :
  fetchWithRetry net url retries t log = (inr e, log') -> e = AbortError \/ e = FetchFailed.
Proof.
  intros H.
  destruct (retry_loop_general net url t retries retries 0 log ltac:(lia)) as [k [_ [Hrun _]]].
  unfold fetchWithRetry in H. rewrite Hrun in H. injection H as He _.
  unfold attempt_outcome in He.
  destruct (net _) as [lat r |]; [| injection He as <-; auto].
  destruct (t <=? lat); [injection He as <-; auto | discriminate].
Qed.

Lemma extract_error s e : extract s = inr e -> e = CouldNotParse \/ e = SyntaxError.
Proof.
  unfold extract. destruct (brace_span s) as [span |]; [| intros H; injection H; auto].
  destruct (json_parse span); intros H; [discriminate | injection H; auto].
Qed.

Lemma read_result_error r log e log' :
  read_result r log = (inr e, log') ->
  log' = log /\ (e = SyntaxError \/ e = TypeError \/ e = NoResponse \/ e = CouldNotParse).
Proof.
  intros H. pose proof (read_result_log r log) as Hl. rewrite H in Hl. cbn [snd] in Hl.
  split; [exact Hl |].
  unfold read_result, throw, lift in H.
  destruct (json_parse (body_text r)) as [data |]; [| injection H; auto].
  destruct (content_of data) as [c | e'] eqn:Hc.
  2: { injection H as <- _. unfold content_of in Hc.
       destruct data; try discriminate Hc. injection Hc as <-. auto. }
  destruct (negb (truthy c)); [injection H; auto |].
  destruct c as [[| | | s | |] |]; try (injection H; auto; fail).
  injection H as He _. destruct (extract_error s e He); auto.
Qed.

(** Every error [analyzeWithAbacus] ([part_002]) throws is one of: the missing key, the
    size ceiling (with an estimate over 4500 KB), a non-2xx RouteLLM status,
    the abort or network failure of the last attempt, or a failure reading
    the reply; the loop's final ["Unreachable"] is never thrown. *)
Theorem analyzeWithAbacus_errors (net : nat -> upstream) apiKey img log e log' :
  analyzeWithAbacus net apiKey img log = (inr e, log') ->
  e = NotConfigured
  \/ (exists kb, e = TooLarge kb /\ 4500 < kb)
  \/ (exists st t, e = RouteLLMError st t /\ ~ (200 <= st <= 299))
  \/ e = AbortError \/ e = FetchFailed
  \/ e = SyntaxError \/ e = TypeError \/ e = NoResponse \/ e = CouldNotParse.
Proof.
  unfold analyzeWithAbacus.
  destruct (configured apiKey); cbn [negb]; [| intros H; injection H; auto].
  destruct (4500 <? base64SizeKB img) eqn:Hs.
  { intros H. injection H as <- _. apply Z.ltb_lt in Hs. right; left. eauto. }
  unfold bind.
  destruct (fetchWithRetry net url_routellm 2 15000 log) as [[resp | e'] l1] eqn:Hf.
  - destruct (ok resp) eqn:Hok; cbn [negb].
    + intros H. destruct (read_result_error resp l1 e log' H) as [_ He]. intuition.
    + intros H. injection H as <- _. right; right; left.
      exists (status resp), (body_text resp). split; [reflexivity |].
      unfold ok in Hok. intros [H1 H2].
      apply Z.leb_le in H1, H2. rewrite H1, H2 in Hok. discriminate.
  - intros H. injection H as <- _.
    destruct (fetchWithRetry_error net url_routellm 2 15000 log e' l1 Hf); intuition.
Qed.

(** [analyzeWithAbacus] of [routes.ts] throws only: the missing key, a
    non-2xx status of the v0 endpoint, the network failure of its single
    fetch, or a failure reading the reply; it never aborts (no timer is
    armed) and never refuses a payload for its size. *)
Theorem analyzeWithAbacus_ts_errors (net : nat -> upstream) apiKey img log e log' :
  analyzeWithAbacus_ts net apiKey img log = (inr e, log') ->
  e = NotConfigured
  \/ (exists st, e = AbacusAPIError st /\ ~ (200 <= st <= 299))
  \/ e = FetchFailed
  \/ e = SyntaxError \/ e = TypeError \/ e = NoResponse \/ e = CouldNotParse.
Proof.
  unfold analyzeWithAbacus_ts.
  destruct (configured apiKey); cbn [negb]; [| intros H; injection H; auto].
  unfold bind, fetch.
  destruct (net (List.length log)) as [lat resp |] eqn:Hn; cbn [attempt_outcome].
  - destruct (ok resp) eqn:Hok; cbn [negb].
    + intros H. destruct (read_result_error resp _ e log' H) as [_ He]. intuition.
    + intros H. injection H as <- _. right; left.
      exists (status resp). split; [reflexivity |].
      unfold ok in Hok. intros [H1 H2].
      apply Z.leb_le in H1, H2. rewrite H1, H2 in Hok. discriminate.
  - intros H. injection H as <- _. auto.
Qed.

Lemma analyzeWithAbacus_errors_witness :
  analyzeWithAbacus net_down (Some "key") "QUJD" []
  = (inr FetchFailed, repeat (call_to url_routellm 15000) 3)
  /\ (FetchFailed = NotConfigured
      \/ (exists kb, FetchFailed = TooLarge kb /\ 4500 < kb)
      \/ (exists st t, FetchFailed = RouteLLMError st t /\ ~ (200 <= st <= 299))
      \/ FetchFailed = AbortError \/ FetchFailed = FetchFailed
      \/ FetchFailed = SyntaxError \/ FetchFailed = TypeError
      \/ FetchFailed = NoResponse \/ FetchFailed = CouldNotParse).
Proof.
  assert (H : analyzeWithAbacus net_down (Some "key") "QUJD" []
              = (inr FetchFailed, repeat (call_to url_routellm 15000) 3))
    by (vm_compute; reflexivity).
  split; [exact H | exact (analyzeWithAbacus_errors _ _ _ _ _ _ H)].
Defined.

Lemma analyzeWithAbacus_ts_errors_witness :
  analyzeWithAbacus_ts net_down (Some "key") "QUJD" []
     = (inr FetchFailed, [{| fc_url := url_abacus_v0; fc_timeout := None |}])
  /\ (FetchFailed = NotConfigured
      \/ (exists st, FetchFailed = AbacusAPIError st /\ ~ (200 <= st <= 299))
      \/ FetchFailed = FetchFailed
      \/ FetchFailed = SyntaxError \/ FetchFailed = TypeError
      \/ FetchFailed = NoResponse \/ FetchFailed = CouldNotParse).
Proof.
  assert (H : analyzeWithAbacus_ts net_down (Some "key") "QUJD" []
              = (inr FetchFailed, [{| fc_url := url_abacus_v0; fc_timeout := None |}]))
    by (vm_compute; reflexivity).
  split; [exact H | exact (analyzeWithAbacus_ts_errors _ _ _ _ _ _ H)].
Defined.

(** ** Settings *)

Lemma settings_run_inv evs : forall b st,
  SettingsScreen.settings st = JObj [("useFahrenheit", JBool b)] ->
  (SettingsScreen.stored st = None /\ b = false
   \/ SettingsScreen.stored st = stringify (JObj [("useFahrenheit", JBool b)])) ->
  exists st', SettingsScreen.run evs st = Some st'
  /\ SettingsScreen.settings st' = JObj [("useFahrenheit", JBool (SettingsScreen.last_toggle b evs))].
Proof.
  induction evs as [| ev evs IH]; intros b st Hs Hst; [eexists; split; [reflexivity | exact Hs] |].
  destruct ev as [v |]; cbn [SettingsScreen.run SettingsScreen.last_toggle fold_left].
  - unfold SettingsScreen.handleToggleUnit. rewrite Hs.
    destruct b, v; apply IH; try reflexivity; right; reflexivity.
  - destruct Hst as [[Hn ->] | Hsome].
    + unfold SettingsScreen.mount, SettingsScreen.loadSettings. rewrite Hn. cbn [SettingsScreen.stored].
      apply IH; [reflexivity | left; split; reflexivity].
    + unfold SettingsScreen.mount, SettingsScreen.loadSettings. rewrite Hsome. cbn [SettingsScreen.stored].
      destruct b; apply IH; try reflexivity; right; reflexivity.
Qed.

(** The unit switch persists: after any sequence of toggles and remounts of
    the settings screen, starting from an empty store, the settings shown are
    [{ useFahrenheit: v }] with [v] the last value toggled ([false] if
    none), and nothing falls outside the model. *)
Theorem settings_toggle_persists evs :
  exists st, SettingsScreen.run evs (SettingsScreen.mount None) = Some st
  /\ SettingsScreen.settings st = JObj [("useFahrenheit", JBool (SettingsScreen.last_toggle false evs))].
Proof.
  apply settings_run_inv; [reflexivity | left; split; reflexivity].
Qed.
